(** * Registry fix script: a shallow embedding of [scripts/registry/fix-registry.py]

    The script loads [registry.json], drops a fixed list of dead [contexts]
    entries, appends entries for the split files that exist on disk, rewrites
    dependency strings that name the old files, and saves the document.

    Python objects are modelled by their JSON values, dictionaries by
    association lists in insertion order, strings by their UTF-8 bytes,
    exceptions by an error value, and [print] by a line appended to the
    console.  The script changes its one registry object in place; nothing
    else holds a reference to a part of it, so every function here returns
    the registry it leaves. *)

From Stdlib Require Import List String Ascii Bool Arith ZArith Lia DecimalString.
Import ListNotations.
Open Scope string_scope.

(** ** Values *)

(** What [json.load] builds.  Numbers are carried as integers; the script
    never computes with them. *)
Unset Elimination Schemes.
Inductive json : Type :=
| JNull
| JBool (b : bool)
| JNum (n : Z)
| JStr (s : string)
| JArr (l : list json)
| JObj (m : list (string * json)).
Set Elimination Schemes.

(** A Python [dict] with string keys, in insertion order. *)
Definition dict (V : Type) : Type := list (string * V).

Module Dict.

Fixpoint get {V} (k : string) (d : dict V) : option V :=
  match d with
  | [] => None
  | (k', v) :: d' => if String.eqb k k' then Some v else get k d'
  end.

(** [k in d] *)
Definition mem {V} (k : string) (d : dict V) : bool :=
  match get k d with Some _ => true | None => false end.

(** [d[k] = v]: an existing key keeps its place, a new one goes last. *)
Fixpoint set {V} (k : string) (v : V) (d : dict V) : dict V :=
  match d with
  | [] => [(k, v)]
  | (k', v') :: d' =>
      if String.eqb k k' then (k', v) :: d' else (k', v') :: set k v d'
  end.

(** [d.get(k, default)] *)
Definition get_default {V} (k : string) (default : V) (d : dict V) : V :=
  match get k d with Some v => v | None => default end.

Definition keys {V} (d : dict V) : list string := map fst d.

End Dict.

(** An entry of a category is a JSON object. *)
Definition Entry : Type := dict json.

(** The document: [components] maps a category to its entries; the other
    top-level members are carried along untouched.  Documents of another
    shape (no [components], a category that is not a list of objects) are
    not represented. *)
Record Registry : Type := mkRegistry {
  components : dict (list Entry);
  members : dict json
}.

Definition with_components (r : Registry) (c : dict (list Entry)) : Registry :=
  mkRegistry c (members r).

(** ** Exceptions, the world and the monad of the script *)

Inductive exn : Type :=
| KeyError (k : string)
| TypeError
| AttributeError
| FileNotFoundError
| JSONDecodeError.

(** What [open(REGISTRY_FILE)] followed by [json.load] finds. *)
Inductive file_content : Type :=
| Absent
| Malformed
| Document (r : Registry).

(** Everything the script reads or writes: the registry file (its name and
    its content), which paths under [REPO_ROOT] exist, and the lines printed
    so far.  A document written by [json.dump] is read back by [json.load]
    as the same value. *)
Record world : Type := mkWorld {
  REGISTRY_FILE : string;
  registry_json : file_content;
  path_exists : string -> bool;
  stdout : list string
}.

(** A computation returns either an exception or a value, together with the
    world it leaves. *)
Definition M (A : Type) : Type := world -> (exn + A) * world.

Definition ret {A} (a : A) : M A := fun w => (inr a, w).

Definition raise {A} (e : exn) : M A := fun w => (inl e, w).

Definition bind {A B} (m : M A) (f : A -> M B) : M B :=
  fun w =>
    match m w with
    | (inl e, w') => (inl e, w')
    | (inr a, w') => f a w'
    end.

Definition printed (w : world) (lines : list string) : world :=
  mkWorld (REGISTRY_FILE w) (registry_json w) (path_exists w)
          (stdout w ++ lines)%list.

Definition print (line : string) : M unit := fun w => (inr tt, printed w [line]).

(** [(REPO_ROOT / p).exists()] *)
Definition exists_ (p : string) : M bool := fun w => (inr (path_exists w p), w).

Notation "x <- m ;; k" := (bind m (fun x => k))
  (at level 61, m at next level, right associativity).
Notation "m ;;; k" := (bind m (fun _ => k))
  (at level 61, right associativity).

(** [d[k]] on a dictionary: a missing key raises [KeyError]. *)
Definition getitem {V} (k : string) (d : dict V) : M V :=
  match Dict.get k d with
  | Some v => ret v
  | None => raise (KeyError k)
  end.

(** A comprehension [[f x for x in l]] whose body may raise. *)
Fixpoint mapM {A B} (f : A -> M B) (l : list A) : M (list B) :=
  match l with
  | [] => ret []
  | x :: l' => y <- f x ;; ys <- mapM f l' ;; ret (y :: ys)
  end.

(** A comprehension [[x for x in l if p x]] whose condition may raise. *)
Fixpoint filterM {A} (p : A -> M bool) (l : list A) : M (list A) :=
  match l with
  | [] => ret []
  | x :: l' =>
      b <- p x ;; ys <- filterM p l' ;; ret (if b then x :: ys else ys)
  end.

(** A [for] loop threading the variables it updates. *)
Fixpoint foldM {A S} (f : S -> A -> M S) (s : S) (l : list A) : M S :=
  match l with
  | [] => ret s
  | x :: l' => s' <- f s x ;; foldM f s' l'
  end.

(** ** Strings *)

(** [str(n)] for a count. *)
Definition str_of_nat (n : nat) : string := NilZero.string_of_uint (Nat.to_uint n).

(** [sep.join(l)] *)
Definition join (sep : string) (l : list string) : string := String.concat sep l.

(** [c * n] *)
Fixpoint repeat_string (c : string) (n : nat) : string :=
  match n with
  | O => ""
  | S n' => c ++ repeat_string c n'
  end.

(** [s.replace(old, new)] for a non-empty [old]: every occurrence of [old],
    found left to right without overlap, becomes [new].  [skip] counts the
    characters of the occurrence just matched that are still to be dropped. *)
Fixpoint replace_from (old new : string) (skip : nat) (s : string) : string :=
  match s with
  | EmptyString => EmptyString
  | String c s' =>
      match skip with
      | S k => replace_from old new k s'
      | O =>
          if String.prefix old s
          then new ++ replace_from old new (String.length old - 1) s'
          else String c (replace_from old new 0 s')
      end
  end.

(** For the empty [old] Python puts [new] before every character and at the
    end. *)
Fixpoint intersperse_all (new s : string) : string :=
  match s with
  | EmptyString => new
  | String c s' => new ++ String c (intersperse_all new s')
  end.

Definition replace (old new s : string) : string :=
  match old with
  | EmptyString => intersperse_all new s
  | String _ _ => replace_from old new 0 s
  end.

(** [old in s] on strings. *)
Fixpoint occurs (old s : string) : bool :=
  match s with
  | EmptyString => String.prefix old EmptyString
  | String _ s' => String.prefix old s || occurs old s'
  end.

(** ** Python operations on JSON values *)

(** [a == b] on the values a set or a list membership test can compare
    here; [True == 1] and [False == 0] hold in Python. *)
Definition py_eq (a b : json) : bool :=
  match a, b with
  | JNull, JNull => true
  | JBool x, JBool y => Bool.eqb x y
  | JBool x, JNum n | JNum n, JBool x => Z.eqb n (if x then 1 else 0)
  | JNum n, JNum m => Z.eqb n m
  | JStr s, JStr t => String.eqb s t
  | _, _ => false
  end.

(** [v in l] for a list [l] of string literals. *)
Definition in_strings (v : json) (l : list string) : bool :=
  existsb (fun s => py_eq v (JStr s)) l.

(** Hashing, as a set needs it: lists and dicts are unhashable. *)
Definition hashed (v : json) : M json :=
  match v with
  | JArr _ | JObj _ => raise TypeError
  | _ => ret v
  end.

(** [v in s] for a set [s], given by its elements. *)
Definition in_set (v : json) (s : list json) : M bool :=
  v' <- hashed v ;; ret (existsb (py_eq v') s).

(** A byte [10xxxxxx], which continues a character of a UTF-8 string. *)
Definition is_continuation (c : ascii) : bool :=
  match c with
  | Ascii _ _ _ _ _ _ b6 b7 => b7 && negb b6
  end.

(** The characters of [s] from its end: the continuation bytes read so far
    that still wait for their first byte, and the characters after them. *)
Fixpoint code_points_from (s : string) : string * list string :=
  match s with
  | EmptyString => (EmptyString, [])
  | String c s' =>
      let (pending, chars) := code_points_from s' in
      if is_continuation c
      then (String c pending, chars)
      else (EmptyString, String c pending :: chars)
  end.

(** The characters (code points) of a string held as its UTF-8 bytes: each
    first byte with the continuation bytes that follow it. *)
Definition code_points (s : string) : list string :=
  let (pending, chars) := code_points_from s in
  match pending with
  | EmptyString => chars
  | _ => pending :: chars
  end.

(** [for x in v]: a list gives its items, a string its characters, a dict
    its keys; nothing else is iterable. *)
Definition iter (v : json) : M (list json) :=
  match v with
  | JArr l => ret l
  | JStr s => ret (map JStr (code_points s))
  | JObj m => ret (map (fun kv => JStr (fst kv)) m)
  | _ => raise TypeError
  end.

(** [dep.replace(old, new)]: only a string has the method. *)
Definition str_replace (old new : string) (dep : json) : M json :=
  match dep with
  | JStr s => ret (JStr (replace old new s))
  | _ => raise AttributeError
  end.

(** [REPO_ROOT / p]: the right operand has to be a string. *)
Definition as_path (p : json) : M string :=
  match p with
  | JStr s => ret s
  | _ => raise TypeError
  end.

(** [f"{v}"] for the one value the script formats: a string prints as it is. *)
Definition format (v : json) : string :=
  match v with
  | JStr s => s
  | _ => ""
  end.

(** ** load_registry, save_registry *)

Definition load_registry : M Registry :=
  fun w =>
    match registry_json w with
    | Absent => (inl FileNotFoundError, w)
    | Malformed => (inl JSONDecodeError, w)
    | Document r => (inr r, w)
    end.

Definition write_registry_file (r : Registry) : M unit :=
  fun w => (inr tt, mkWorld (REGISTRY_FILE w) (Document r) (path_exists w) (stdout w)).

Definition the_registry_file : M string := fun w => (inr (REGISTRY_FILE w), w).

(** The write is taken to succeed: an [open] or a [json.dump] that fails
    (disk, permissions) is not represented, so nothing is stated here of a
    run whose save fails. *)
Definition save_registry (registry : Registry) : M unit :=
  write_registry_file registry ;;;
  f <- the_registry_file ;;
  print ("✓ Registry saved to " ++ f).

(** ** remove_dead_references *)

Definition dead_entries : list string :=
  [ "workflows-delegation"; "design-iteration"; "design-assets";
    "animation-patterns"; "adding-agent"; "adding-skill";
    "navigation-design"; "claude-agent-skills"; "claude-create-subagents";
    "claude-hooks"; "claude-plugins"; "external-libraries"; "navigation" ].

(** The condition of the comprehension: [c['id'] not in dead_entries]. *)
Definition not_dead (c : Entry) : M bool :=
  id <- getitem "id" c ;; ret (negb (in_strings id dead_entries)).

Definition remove_dead_references (registry : Registry) : M Registry :=
  st <- foldM (fun (st : Registry * list string) category =>
                 let (registry, removed) := st in
                 if Dict.mem category (components registry) then
                   cs <- getitem category (components registry) ;;
                   let original_count := List.length cs in
                   kept <- filterM not_dead cs ;;
                   let registry :=
                     with_components registry
                       (Dict.set category kept (components registry)) in
                   let removed_count := original_count - List.length kept in
                   if Nat.ltb 0 removed_count
                   then
                     let line :=
                       category ++ ": " ++ str_of_nat removed_count ++ " entries" in
                     ret (registry, (removed ++ [line])%list)
                   else ret (registry, removed)
                 else ret (registry, removed))
              (registry, []) ["contexts"] ;;
  let (registry, removed) := st in
  print ("✓ Removed dead references: "
         ++ match removed with [] => "None" | _ => join ", " removed end) ;;;
  ret registry.

(** ** add_split_file_entries *)

(** Every candidate has type [context], no dependencies and category
    [standard]. *)
Definition new_entry (id name path description : string) (tags : list string)
  : Entry :=
  [ ("id", JStr id); ("name", JStr name); ("type", JStr "context");
    ("path", JStr path); ("description", JStr description);
    ("tags", JArr (map JStr tags)); ("dependencies", JArr []);
    ("category", JStr "standard") ].

Definition new_entries : list Entry :=
  [
    new_entry "task-delegation-basics"
      "Task Delegation Basics"
      ".opencode/context/core/workflows/task-delegation-basics.md"
      "Task delegation fundamentals and basic usage patterns"
      ["workflows"; "delegation"];
    new_entry "task-delegation-specialists"
      "Task Delegation Specialists"
      ".opencode/context/core/workflows/task-delegation-specialists.md"
      "Specialist subagents for task delegation workflows"
      ["workflows"; "delegation"; "subagents"];
    new_entry "task-delegation-caching"
      "Task Delegation Caching"
      ".opencode/context/core/workflows/task-delegation-caching.md"
      "Caching strategies for task delegation workflows"
      ["workflows"; "delegation"; "caching"];
    new_entry "design-iteration-overview"
      "Design Iteration Overview"
      ".opencode/context/core/workflows/design-iteration-overview.md"
      "Overview of the design iteration workflow process"
      ["workflows"; "design"; "iteration"];
    new_entry "design-iteration-plan-file"
      "Design Iteration Plan File"
      ".opencode/context/core/workflows/design-iteration-plan-file.md"
      "Structure and format for design iteration plan files"
      ["workflows"; "design"; "planning"];
    new_entry "design-iteration-plan-iterations"
      "Design Iteration Plan Iterations"
      ".opencode/context/core/workflows/design-iteration-plan-iterations.md"
      "Planning iterations in the design workflow"
      ["workflows"; "design"; "planning"];
    new_entry "design-iteration-stage-layout"
      "Design Iteration Stage - Layout"
      ".opencode/context/core/workflows/design-iteration-stage-layout.md"
      "Layout stage guidelines for design iteration"
      ["workflows"; "design"; "layout"];
    new_entry "design-iteration-stage-theme"
      "Design Iteration Stage - Theme"
      ".opencode/context/core/workflows/design-iteration-stage-theme.md"
      "Theme stage guidelines for design iteration"
      ["workflows"; "design"; "theme"];
    new_entry "design-iteration-stage-implementation"
      "Design Iteration Stage - Implementation"
      ".opencode/context/core/workflows/design-iteration-stage-implementation.md"
      "Implementation stage guidelines for design iteration"
      ["workflows"; "design"; "implementation"];
    new_entry "design-iteration-stage-animation"
      "Design Iteration Stage - Animation"
      ".opencode/context/core/workflows/design-iteration-stage-animation.md"
      "Animation stage guidelines for design iteration"
      ["workflows"; "design"; "animation"];
    new_entry "design-iteration-visual-content"
      "Design Iteration Visual Content"
      ".opencode/context/core/workflows/design-iteration-visual-content.md"
      "Visual content guidelines for design iteration"
      ["workflows"; "design"; "visual"];
    new_entry "design-iteration-best-practices"
      "Design Iteration Best Practices"
      ".opencode/context/core/workflows/design-iteration-best-practices.md"
      "Best practices for design iteration workflows"
      ["workflows"; "design"; "best-practices"];
    new_entry "external-libraries-workflow"
      "External Libraries Workflow"
      ".opencode/context/core/workflows/external-libraries-workflow.md"
      "Workflow for managing external library dependencies"
      ["workflows"; "external"; "libraries"];
    new_entry "external-libraries-scenarios"
      "External Libraries Scenarios"
      ".opencode/context/core/workflows/external-libraries-scenarios.md"
      "Common scenarios for external library integration"
      ["workflows"; "external"; "libraries"; "scenarios"];
    new_entry "external-libraries-faq"
      "External Libraries FAQ"
      ".opencode/context/core/workflows/external-libraries-faq.md"
      "Frequently asked questions about external libraries"
      ["workflows"; "external"; "libraries"; "faq"];
    new_entry "adding-agent-basics"
      "Adding Agent - Basics"
      ".opencode/context/openagents-repo/guides/adding-agent-basics.md"
      "Basic guide for adding new agents"
      ["guides"; "agents"; "basics"];
    new_entry "adding-agent-testing"
      "Adding Agent - Testing"
      ".opencode/context/openagents-repo/guides/adding-agent-testing.md"
      "Testing guide for new agents"
      ["guides"; "agents"; "testing"];
    new_entry "adding-skill-basics"
      "Adding Skill - Basics"
      ".opencode/context/openagents-repo/guides/adding-skill-basics.md"
      "Basic guide for adding new skills"
      ["guides"; "skills"; "basics"];
    new_entry "adding-skill-implementation"
      "Adding Skill - Implementation"
      ".opencode/context/openagents-repo/guides/adding-skill-implementation.md"
      "Implementation guide for new skills"
      ["guides"; "skills"; "implementation"];
    new_entry "adding-skill-example"
      "Adding Skill - Example"
      ".opencode/context/openagents-repo/guides/adding-skill-example.md"
      "Example of adding a new skill"
      ["guides"; "skills"; "examples"];
    new_entry "navigation-design-basics"
      "Navigation Design Basics"
      ".opencode/context/core/context-system/guides/navigation-design-basics.md"
      "Basics of designing navigation files"
      ["context-system"; "navigation"; "design"];
    new_entry "navigation-templates"
      "Navigation Templates"
      ".opencode/context/core/context-system/guides/navigation-templates.md"
      "Templates for navigation files"
      ["context-system"; "navigation"; "templates"];
    new_entry "animation-basics"
      "Animation Basics"
      ".opencode/context/ui/web/animation-basics.md"
      "Basic animation patterns and guidelines"
      ["ui"; "web"; "animation"];
    new_entry "animation-advanced"
      "Animation Advanced"
      ".opencode/context/ui/web/animation-advanced.md"
      "Advanced animation patterns and techniques"
      ["ui"; "web"; "animation"];
    new_entry "animation-components"
      "Animation Components"
      ".opencode/context/ui/web/animation-components.md"
      "Component-specific animation patterns"
      ["ui"; "web"; "animation"; "components"];
    new_entry "animation-forms"
      "Animation Forms"
      ".opencode/context/ui/web/animation-forms.md"
      "Animation patterns for forms"
      ["ui"; "web"; "animation"; "forms"];
    new_entry "animation-chat"
      "Animation Chat"
      ".opencode/context/ui/web/animation-chat.md"
      "Animation patterns for chat interfaces"
      ["ui"; "web"; "animation"; "chat"];
    new_entry "animation-loading"
      "Animation Loading"
      ".opencode/context/ui/web/animation-loading.md"
      "Loading animation patterns"
      ["ui"; "web"; "animation"; "loading"]
  ].

(** The body of the loop that checks the files. *)
Definition verify_step (verified_entries : list Entry) (entry : Entry)
  : M (list Entry) :=
  p <- getitem "path" entry ;;
  file_path <- as_path p ;;
  there <- exists_ file_path ;;
  if there then ret (verified_entries ++ [entry])%list
  else print ("⚠ File doesn't exist: " ++ format p) ;;;
       ret verified_entries.

(** The element of the set comprehension: [c['id']], hashed. *)
Definition hashed_id (c : Entry) : M json := id <- getitem "id" c ;; hashed id.

(** The body of the loop that appends the verified entries. *)
Definition append_step (existing_ids : list json) (st : Registry * nat)
    (entry : Entry) : M (Registry * nat) :=
  let (registry, added) := st in
  id <- getitem "id" entry ;;
  known <- in_set id existing_ids ;;
  if negb known then
    cs <- getitem "contexts" (components registry) ;;
    ret (with_components registry
           (Dict.set "contexts" (cs ++ [entry])%list (components registry)),
         added + 1)
  else ret (registry, added).

Definition add_split_file_entries (registry : Registry) : M Registry :=
  verified_entries <- foldM verify_step [] new_entries ;;
  let registry :=
    if negb (Dict.mem "contexts" (components registry))
    then with_components registry (Dict.set "contexts" [] (components registry))
    else registry in
  cs <- getitem "contexts" (components registry) ;;
  existing_ids <- mapM hashed_id cs ;;
  st <- foldM (append_step existing_ids) (registry, 0) verified_entries ;;
  let (registry, added) := st in
  print ("✓ Added " ++ str_of_nat added ++ " new split-file entries") ;;;
  ret registry.

(** ** update_dependencies *)

(** [e['dependencies'] = [dep.replace(old, new) for dep in e['dependencies']]] *)
Definition rewrite_dependencies (old new : string) (e : Entry) : M Entry :=
  deps <- getitem "dependencies" e ;;
  items <- iter deps ;;
  deps' <- mapM (str_replace old new) items ;;
  ret (Dict.set "dependencies" (JArr deps') e).

Definition update_agent (agent : Entry) : M Entry :=
  id <- getitem "id" agent ;;
  if py_eq id (JStr "opencoder") then
    agent <- rewrite_dependencies "context:workflows-delegation"
               "context:task-delegation-basics" agent ;;
    id <- getitem "id" agent ;;
    print ("✓ Updated dependencies for agent: " ++ format id) ;;;
    ret agent
  else ret agent.

Definition update_context (ctx : Entry) : M Entry :=
  if Dict.mem "dependencies" ctx then
    ctx <- rewrite_dependencies "context:external-libraries"
             "context:external-libraries-workflow" ctx ;;
    ctx <- rewrite_dependencies "context:adding-agent"
             "context:adding-agent-basics" ctx ;;
    rewrite_dependencies "context:adding-skill"
      "context:adding-skill-basics" ctx
  else ret ctx.

(** [for e in registry['components'].get(category, []): body(e)], the body
    changing [e] in place: the entries of a present category are replaced,
    one after the other, by what the body makes of them; over an absent
    category the loop runs on the default [[]] and changes nothing. *)
Definition for_each_in (category : string) (body : Entry -> M Entry)
    (registry : Registry) : M Registry :=
  match Dict.get category (components registry) with
  | Some es =>
      es' <- mapM body es ;;
      ret (with_components registry (Dict.set category es' (components registry)))
  | None => ret registry
  end.

Definition update_dependencies (registry : Registry) : M Registry :=
  registry <- for_each_in "agents" update_agent registry ;;
  registry <- for_each_in "contexts" update_context registry ;;
  print "✓ Updated dependencies referencing split files" ;;;
  ret registry.

(** ** main *)

(** The three fix steps of [main], in its order. *)
Definition fix_steps (registry : Registry) : M Registry :=
  registry <- remove_dead_references registry ;;
  registry <- add_split_file_entries registry ;;
  update_dependencies registry.

Definition main : M unit :=
  print (repeat_string "=" 60) ;;;
  print "Registry Fix Script" ;;;
  print (repeat_string "=" 60) ;;;
  registry <- load_registry ;;
  print ("✓ Loaded registry with "
         ++ str_of_nat (List.length (Dict.get_default "contexts" [] (components registry)))
         ++ " contexts") ;;;
  registry <- fix_steps registry ;;
  save_registry registry ;;;
  let context_count := List.length (Dict.get_default "contexts" [] (components registry)) in
  print (String "010" ("✓ Registry now has " ++ str_of_nat context_count
                       ++ " context entries")) ;;;
  print (String "010" "Next: Run validation to check results") ;;;
  print "  bun run scripts/registry/validate-registry.ts".

(** * Vocabulary of the properties *)

(** ** Effects *)

(** [prints P m]: whatever [m] returns or raises, it leaves the world as it
    found it but for lines it printed, each of which satisfies [P]. *)
Definition prints {A} (P : string -> Prop) (m : M A) : Prop :=
  forall w res w', m w = (res, w') ->
    exists lines, w' = printed w lines /\ Forall P lines.

(** A computation that prints nothing leaves the world as it found it. *)
Definition silent {A} (m : M A) : Prop := prints (fun _ => False) m.

(** ** Registries and entries *)

Definition contexts_of (r : Registry) : list Entry :=
  Dict.get_default "contexts" [] (components r).

(** The agents of a registry, as [update_dependencies] walks them. *)
Definition agents_of (r : Registry) : list Entry :=
  Dict.get_default "agents" [] (components r).

(** [c['id']] does not raise. *)
Definition has_id (c : Entry) : bool := Dict.mem "id" c.

(** [a] stands somewhere before [b] in [l]. *)
Definition before {A} (a b : A) (l : list A) : Prop :=
  exists l1 l2 l3, l = (l1 ++ a :: l2 ++ b :: l3)%list.

(** ** remove_dead_references *)

(** The entries the comprehension keeps: those whose [id] is not one of
    [dead_entries]. *)
Definition keep (c : Entry) : bool :=
  negb (in_strings (Dict.get_default "id" JNull c) dead_entries).

(** [e] carries one of the ids of [dead_entries]. *)
Definition denylisted (e : Entry) : Prop :=
  exists i, Dict.get "id" e = Some (JStr i) /\ In i dead_entries.

(** The line [remove_dead_references] prints for a [contexts] list. *)
Definition removed_line (cs : list Entry) : string :=
  let removed_count := List.length cs - List.length (filter keep cs) in
  "✓ Removed dead references: "
  ++ (if Nat.ltb 0 removed_count
      then "contexts: " ++ str_of_nat removed_count ++ " entries"
      else "None").

(** ** add_split_file_entries *)

(** [e['id']], where there is one. *)
Definition entry_id (e : Entry) : json := Dict.get_default "id" JNull e.

(** [entry['path']] of a candidate. *)
Definition candidate_path (e : Entry) : string :=
  format (Dict.get_default "path" JNull e).

(** A candidate carries a string [path] and a string [id]. *)
Definition is_candidate (e : Entry) : bool :=
  match Dict.get "path" e, Dict.get "id" e with
  | Some (JStr _), Some (JStr _) => true
  | _, _ => false
  end.

(** The candidate's file exists. *)
Definition on_disk (w : world) (e : Entry) : bool :=
  path_exists w (candidate_path e).

Definition missing (w : world) (e : Entry) : bool := negb (on_disk w e).

(** The line printed for a candidate whose file is missing. *)
Definition warning (e : Entry) : string :=
  "⚠ File doesn't exist: " ++ candidate_path e.

(** [hash(v)] does not raise. *)
Definition hashable (v : json) : bool :=
  match v with
  | JArr _ | JObj _ => false
  | _ => true
  end.

(** [c['id']] can go into the set of existing ids. *)
Definition has_hashable_id (c : Entry) : bool :=
  match Dict.get "id" c with
  | Some v => hashable v
  | None => false
  end.

(** The elements of [existing_ids]. *)
Definition ids_of (cs : list Entry) : list json := map entry_id cs.

(** [e]'s id is not among [ids]. *)
Definition fresh (ids : list json) (e : Entry) : bool :=
  negb (existsb (py_eq (entry_id e)) ids).

(** The entries [add_split_file_entries] appends to a [contexts] list [cs]. *)
Definition added_entries (w : world) (cs : list Entry) : list Entry :=
  filter (fresh (ids_of cs)) (filter (on_disk w) new_entries).

(** The warnings [add_split_file_entries] prints, in order. *)
Definition warnings (w : world) : list string :=
  map warning (filter (missing w) new_entries).

(** The line that reports the count added. *)
Definition added_line (n : nat) : string :=
  "✓ Added " ++ str_of_nat n ++ " new split-file entries".

(** The registry [add_split_file_entries] returns. *)
Definition with_added (w : world) (r : Registry) : Registry :=
  with_components r
    (Dict.set "contexts" (contexts_of r ++ added_entries w (contexts_of r))%list
       (components r)).

(** The ids of the candidates, as strings. *)
Definition candidate_id (e : Entry) : string := format (entry_id e).

(** No string of [l] stands in it twice. *)
Fixpoint distinct (l : list string) : bool :=
  match l with
  | [] => true
  | x :: l' => negb (existsb (String.eqb x) l') && distinct l'
  end.

(** ** Strings *)

(** [s[n:]] *)
Fixpoint drop (n : nat) (s : string) : string :=
  match n, s with
  | O, _ => s
  | S k, String _ s' => drop k s'
  | S _, EmptyString => EmptyString
  end.

(** ** update_dependencies *)

(** The dependency strings after the three rewrites of [update_context]. *)
Definition rewrite_context_dep (dep : string) : string :=
  replace "context:adding-skill" "context:adding-skill-basics"
    (replace "context:adding-agent" "context:adding-agent-basics"
       (replace "context:external-libraries" "context:external-libraries-workflow"
          dep)).

(** The dependency strings after the rewrite of [update_agent]. *)
Definition rewrite_agent_dep (dep : string) : string :=
  replace "context:workflows-delegation" "context:task-delegation-basics" dep.

(** [e'] is [e], or [e] with another value under [dependencies]. *)
Inductive same_but_dependencies (e : Entry) : Entry -> Prop :=
| sbd_same : same_but_dependencies e e
| sbd_rewritten (v : json) :
    Dict.mem "dependencies" e = true ->
    same_but_dependencies e (Dict.set "dependencies" v e).

(** How [update_dependencies] relates an entry of a category to the entry
    that stands in its place afterwards. *)
Definition updated (category : string) (e e' : Entry) : Prop :=
  if String.eqb category "agents"
  then exists w1 w2, update_agent e w1 = (inr e', w2)
  else if String.eqb category "contexts"
       then exists w1 w2, update_context e w1 = (inr e', w2)
       else e' = e.

(** [isinstance(v, str)] *)
Definition is_str (v : json) : bool :=
  match v with
  | JStr _ => true
  | _ => false
  end.

(** One of the old substrings of the three [contexts] rules occurs in
    [dep]. *)
Definition mentions_old (dep : string) : bool :=
  occurs "context:external-libraries" dep
  || occurs "context:adding-agent" dep
  || occurs "context:adding-skill" dep.


(** What the comprehension of [rewrite_dependencies] accepts for
    [dependencies]: a list of strings, a string (taken character by
    character) or an object (taken key by key). *)
Definition iterable_of_strings (v : json) : bool :=
  match v with
  | JArr l => forallb is_str l
  | JStr _ | JObj _ => true
  | _ => false
  end.

(** ** The whole run *)


(** A line that is not the confirmation [save_registry] prints. *)
Definition not_saved_line (line : string) : Prop :=
  String.prefix "✓ Registry saved to " line = false.

(** What [main] prints before it loads the registry. *)
Definition banner : list string :=
  [repeat_string "=" 60; "Registry Fix Script"; repeat_string "=" 60].

(** What [main] prints once the registry is loaded. *)
Definition loaded_line (r : Registry) : string :=
  "✓ Loaded registry with " ++ str_of_nat (List.length (contexts_of r))
  ++ " contexts".

(** The ways [main] can raise before it reaches [save_registry]: in
    [load_registry], or in one of the three steps, each run in the world the
    steps before it left. *)
Inductive aborts_before_save (w : world) (e : exn) (w' : world) : Prop :=
| abort_in_load :
    load_registry (printed w banner) = (inl e, w') ->
    aborts_before_save w e w'
| abort_in_remove (r : Registry) (w0 : world) :
    load_registry (printed w banner) = (inr r, w0) ->
    remove_dead_references r (printed w0 [loaded_line r]) = (inl e, w') ->
    aborts_before_save w e w'
| abort_in_add (r r1 : Registry) (w0 w1 : world) :
    load_registry (printed w banner) = (inr r, w0) ->
    remove_dead_references r (printed w0 [loaded_line r]) = (inr r1, w1) ->
    add_split_file_entries r1 w1 = (inl e, w') ->
    aborts_before_save w e w'
| abort_in_update (r r1 r2 : Registry) (w0 w1 w2 : world) :
    load_registry (printed w banner) = (inr r, w0) ->
    remove_dead_references r (printed w0 [loaded_line r]) = (inr r1, w1) ->
    add_split_file_entries r1 w1 = (inr r2, w2) ->
    update_dependencies r2 w2 = (inl e, w') ->
    aborts_before_save w e w'.

(** ** Registries of the shape the script expects *)

(** A list of strings. *)
Definition is_str_list (v : json) : bool :=
  match v with
  | JArr l => forallb is_str l
  | _ => false
  end.

(** A context has a string [id] and, where it has dependencies, a list of
    strings for them. *)
Definition well_formed_context (e : Entry) : bool :=
  match Dict.get "id" e with
  | Some (JStr _) =>
      match Dict.get "dependencies" e with
      | Some v => is_str_list v
      | None => true
      end
  | _ => false
  end.

(** An agent has a string [id]; the agent [opencoder] has a list of strings
    for dependencies. *)
Definition well_formed_agent (e : Entry) : bool :=
  match Dict.get "id" e with
  | Some (JStr i) =>
      if String.eqb i "opencoder"
      then match Dict.get "dependencies" e with
           | Some v => is_str_list v
           | None => false
           end
      else true
  | _ => false
  end.

Definition well_formed (r : Registry) : bool :=
  forallb well_formed_context (contexts_of r)
  && forallb well_formed_agent (agents_of r).






(** ** Sample inputs *)

Definition sample_entry (id : string) (deps : list string) : Entry :=
  [("id", JStr id); ("dependencies", JArr (map JStr deps))].

(** Two agents with the same dependency; a dead context, a context that is
    also a candidate, and a context that depends on a file that was split. *)
Definition sample_registry : Registry :=
  mkRegistry
    [("agents", [sample_entry "opencoder" ["context:workflows-delegation"];
                 sample_entry "openagent" ["context:workflows-delegation"]]);
     ("contexts", [sample_entry "workflows-delegation" [];
                   sample_entry "task-delegation-basics" [];
                   sample_entry "guide" ["context:adding-agent"]])]
    [("version", JStr "1.0")].

(** Two of the candidates' files exist. *)
Definition sample_disk (p : string) : bool :=
  String.eqb p ".opencode/context/core/workflows/task-delegation-basics.md"
  || String.eqb p ".opencode/context/core/workflows/task-delegation-caching.md".

Definition sample_world : world :=
  mkWorld "registry.json" (Document sample_registry) sample_disk [].

(** A registry without [contexts]. *)
Definition agents_only_registry : Registry :=
  mkRegistry [("agents", [sample_entry "opencoder" []])] [].

(** One context that depends on [adding-agent]; none of the candidates'
    files exists. *)
Definition guide_registry : Registry :=
  mkRegistry
    [("contexts", [sample_entry "guide" ["context:adding-agent"]])] [].

Definition guide_world : world :=
  mkWorld "registry.json" (Document guide_registry) (fun _ => false) [].

(** One context whose dependencies mention none of the files that were
    split. *)
Definition clean_registry : Registry :=
  mkRegistry
    [("contexts", [sample_entry "notes" ["context:foo"; "skill:adding-agent"]])]
    [].

Definition clean_world : world :=
  mkWorld "registry.json" (Document clean_registry) (fun _ => false) [].

(** The agent [opencoder] without a [dependencies] member. *)
Definition broken_registry : Registry :=
  mkRegistry [("agents", [[("id", JStr "opencoder")]])] [].

Definition broken_world : world :=
  mkWorld "registry.json" (Document broken_registry) (fun _ => false) [].

(** A registry with a context that has no [id]. *)
Definition idless_registry : Registry :=
  mkRegistry [("contexts", [[("name", JStr "Untitled")]])] [].

(** The candidate whose file is missing in [sample_world]. *)
Definition specialists : Entry :=
  new_entry "task-delegation-specialists"
    "Task Delegation Specialists"
    ".opencode/context/core/workflows/task-delegation-specialists.md"
    "Specialist subagents for task delegation workflows"
    ["workflows"; "delegation"; "subagents"].

(** * Properties *)

(** ** Dictionaries *)

Module DictFacts.

Lemma get_set_same {V} (k : string) (v : V) (d : dict V) :
  Dict.get k (Dict.set k v d) = Some v.
Proof.
  induction d as [ | [k' v'] d IH]; simpl.
  - now rewrite String.eqb_refl.
  - destruct (String.eqb k k') eqn:E; simpl; rewrite E; auto.
Qed.

Lemma get_set_other {V} (k k' : string) (v : V) (d : dict V) :
  k' <> k -> Dict.get k' (Dict.set k v d) = Dict.get k' d.
Proof.
  intros Hne. induction d as [ | [k0 v0] d IH]; simpl.
  - destruct (String.eqb k' k) eqn:E; auto.
    apply String.eqb_eq in E. contradiction.
  - destruct (String.eqb k k0) eqn:E; simpl.
    + apply String.eqb_eq in E. subst k0.
      destruct (String.eqb k' k) eqn:E'; auto.
      apply String.eqb_eq in E'. contradiction.
    + now rewrite IH.
Qed.

Lemma set_set {V} (k : string) (v1 v2 : V) (d : dict V) :
  Dict.set k v2 (Dict.set k v1 d) = Dict.set k v2 d.
Proof.
  induction d as [ | [k' v'] d IH]; simpl.
  - now rewrite String.eqb_refl.
  - destruct (String.eqb k k') eqn:E; simpl; rewrite E; auto.
    now rewrite IH.
Qed.

Lemma set_get {V} (k : string) (v : V) (d : dict V) :
  Dict.get k d = Some v -> Dict.set k v d = d.
Proof.
  induction d as [ | [k' v'] d IH]; simpl; [discriminate|].
  destruct (String.eqb k k') eqn:E.
  - now intros [= ->].
  - intros H. now rewrite IH.
Qed.

(** Assigning to a key that is present keeps the keys and their order. *)
Lemma keys_set_present {V} (k : string) (v : V) (d : dict V) :
  Dict.mem k d = true -> Dict.keys (Dict.set k v d) = Dict.keys d.
Proof.
  unfold Dict.mem, Dict.keys.
  induction d as [ | [k' v'] d IH]; simpl; [discriminate|].
  destruct (String.eqb k k') eqn:E; simpl; auto.
  intros H. now rewrite IH.
Qed.

(** Assigning to a new key puts it last. *)
Lemma keys_set_absent {V} (k : string) (v : V) (d : dict V) :
  Dict.mem k d = false -> Dict.keys (Dict.set k v d) = (Dict.keys d ++ [k])%list.
Proof.
  unfold Dict.mem, Dict.keys.
  induction d as [ | [k' v'] d IH]; simpl; auto.
  destruct (String.eqb k k') eqn:E; simpl; [discriminate|].
  intros H. now rewrite IH.
Qed.

Lemma mem_get {V} (k : string) (d : dict V) :
  Dict.mem k d = true <-> exists v, Dict.get k d = Some v.
Proof.
  unfold Dict.mem. destruct (Dict.get k d); split; eauto.
  - discriminate.
  - intros [v [=]].
Qed.

End DictFacts.

(** ** Worlds *)

Lemma printed_nil (w : world) : printed w [] = w.
Proof. destruct w. unfold printed. simpl. now rewrite app_nil_r. Qed.

Lemma printed_printed (w : world) (l1 l2 : list string) :
  printed (printed w l1) l2 = printed w (l1 ++ l2).
Proof. unfold printed. simpl. now rewrite app_assoc. Qed.

(** ** The monad *)

Lemma bind_ok {A B} (m : M A) (f : A -> M B) (w w' : world) (b : B) :
  bind m f w = (inr b, w') ->
  exists a w1, m w = (inr a, w1) /\ f a w1 = (inr b, w').
Proof.
  unfold bind. destruct (m w) as [[e|a] w1]; [discriminate|]. eauto.
Qed.

Lemma bind_raises {A B} (m : M A) (f : A -> M B) (w w' : world) (e : exn) :
  bind m f w = (inl e, w') ->
  m w = (inl e, w') \/ exists a w1, m w = (inr a, w1) /\ f a w1 = (inl e, w').
Proof.
  unfold bind. destruct (m w) as [[e'|a] w1]; intros H.
  - injection H as -> ->. now left.
  - right. eauto.
Qed.

Lemma bind_step {A B} {m : M A} (f : A -> M B) {w w1 : world} {a : A} :
  m w = (inr a, w1) -> bind m f w = f a w1.
Proof. unfold bind. now intros ->. Qed.

Lemma bind_abort {A B} {m : M A} (f : A -> M B) {w w1 : world} {e : exn} :
  m w = (inl e, w1) -> bind m f w = (inl e, w1).
Proof. unfold bind. now intros ->. Qed.

Lemma bind_ret_l {A B} (a : A) (f : A -> M B) (w : world) :
  bind (ret a) f w = f a w.
Proof. reflexivity. Qed.

Lemma bind_bind {A B C} (m : M A) (f : A -> M B) (g : B -> M C) (w : world) :
  bind (bind m f) g w = bind m (fun a => bind (f a) g) w.
Proof. unfold bind. now destruct (m w) as [[e|a] w1]. Qed.

Lemma bind_print {B} (line : string) (f : unit -> M B) (w : world) :
  bind (print line) f w = f tt (printed w [line]).
Proof. reflexivity. Qed.

Lemma bind_exists {B} (p : string) (f : bool -> M B) (w : world) :
  bind (exists_ p) f w = f (path_exists w p) w.
Proof. reflexivity. Qed.

Lemma bind_raise {A B} (e : exn) (f : A -> M B) (w : world) :
  bind (raise e) f w = (inl e, w).
Proof. reflexivity. Qed.

(** Runs the binds whose first computation is known. *)
Ltac mnorm :=
  repeat first
    [ rewrite bind_bind | rewrite bind_ret_l | rewrite bind_print
    | rewrite bind_exists | rewrite bind_raise ].

(** ** What a computation can do to the world *)

Section Prints.

Variable P : string -> Prop.

Lemma prints_ret {A} (a : A) : prints P (ret a).
Proof.
  intros w res w' [= <- <-]. exists []. now rewrite printed_nil.
Qed.

Lemma prints_raise {A} (e : exn) : prints P (@raise A e).
Proof.
  intros w res w' [= <- <-]. exists []. now rewrite printed_nil.
Qed.

Lemma prints_print (line : string) : P line -> prints P (print line).
Proof.
  intros HP w res w' [= <- <-]. exists [line]. auto.
Qed.

Lemma prints_exists (p : string) : prints P (exists_ p).
Proof.
  intros w res w' [= <- <-]. exists []. now rewrite printed_nil.
Qed.

Lemma prints_bind {A B} (m : M A) (f : A -> M B) :
  prints P m -> (forall a, prints P (f a)) -> prints P (bind m f).
Proof.
  intros Hm Hf w res w'. unfold bind.
  destruct (m w) as [[e|a] w1] eqn:E; destruct (Hm _ _ _ E) as (l1 & -> & H1).
  - intros [= <- <-]. eauto.
  - intros E2. destruct (Hf _ _ _ _ E2) as (l2 & -> & H2).
    exists (l1 ++ l2)%list. rewrite printed_printed. split; auto.
    apply Forall_app; auto.
Qed.

Lemma prints_getitem {V} (k : string) (d : dict V) : prints P (getitem k d).
Proof.
  unfold getitem. destruct (Dict.get k d); [apply prints_ret | apply prints_raise].
Qed.

Lemma prints_mapM {A B} (f : A -> M B) (l : list A) :
  (forall x, prints P (f x)) -> prints P (mapM f l).
Proof.
  intros Hf. induction l as [ | x l IH]; simpl.
  - apply prints_ret.
  - apply prints_bind; auto. intros y.
    apply prints_bind; auto. intros ys. apply prints_ret.
Qed.

Lemma prints_filterM {A} (p : A -> M bool) (l : list A) :
  (forall x, prints P (p x)) -> prints P (filterM p l).
Proof.
  intros Hp. induction l as [ | x l IH]; simpl.
  - apply prints_ret.
  - apply prints_bind; auto. intros b.
    apply prints_bind; auto. intros ys. apply prints_ret.
Qed.

Lemma prints_foldM {A S} (f : S -> A -> M S) (l : list A) :
  (forall s x, prints P (f s x)) -> forall s, prints P (foldM f s l).
Proof.
  intros Hf. induction l as [ | x l IH]; intros s; simpl.
  - apply prints_ret.
  - apply prints_bind; auto.
Qed.

Lemma prints_hashed (v : json) : prints P (hashed v).
Proof. destruct v; simpl; (apply prints_ret || apply prints_raise). Qed.

Lemma prints_in_set (v : json) (s : list json) : prints P (in_set v s).
Proof.
  unfold in_set. apply prints_bind; [apply prints_hashed|].
  intros. apply prints_ret.
Qed.

Lemma prints_iter (v : json) : prints P (iter v).
Proof. destruct v; simpl; (apply prints_ret || apply prints_raise). Qed.

Lemma prints_str_replace (old new : string) (v : json) :
  prints P (str_replace old new v).
Proof. destruct v; simpl; (apply prints_ret || apply prints_raise). Qed.

Lemma prints_as_path (v : json) : prints P (as_path v).
Proof. destruct v; simpl; (apply prints_ret || apply prints_raise). Qed.

End Prints.

Create HintDb prints.
#[export] Hint Resolve prints_ret prints_raise prints_exists prints_getitem
  prints_hashed prints_in_set prints_iter prints_str_replace prints_as_path
  : prints.

(** Takes a computation apart along its binds, loops and branches. *)
Ltac prints_tac :=
  repeat first
    [ progress auto with prints
    | apply prints_bind
    | apply prints_mapM
    | apply prints_filterM
    | apply prints_foldM
    | apply prints_print
    | match goal with
      | |- forall _, _ => intro
      | |- prints _ (let (_, _) := ?p in _) => destruct p
      | |- prints _ (if ?b then _ else _) => destruct b
      | |- prints _ (match ?x with _ => _ end) => destruct x
      end
    | progress cbv beta ].

(** ** remove_dead_references, in closed form *)

Lemma not_dead_ok (c : Entry) (w : world) :
  has_id c = true -> not_dead c w = (inr (keep c), w).
Proof.
  unfold has_id, Dict.mem, not_dead, keep, getitem, Dict.get_default, bind.
  destruct (Dict.get "id" c); [reflexivity | discriminate].
Qed.

Lemma not_dead_raises (c : Entry) (w : world) :
  has_id c = false -> not_dead c w = (inl (KeyError "id"), w).
Proof.
  unfold has_id, Dict.mem, not_dead, getitem, bind.
  destruct (Dict.get "id" c); [discriminate | reflexivity].
Qed.

Lemma filterM_not_dead_ok (cs : list Entry) (w : world) :
  forallb has_id cs = true -> filterM not_dead cs w = (inr (filter keep cs), w).
Proof.
  induction cs as [ | c cs IH]; simpl; [reflexivity|].
  intros [Hc Hcs]%andb_prop.
  rewrite (bind_step _ (not_dead_ok c w Hc)).
  rewrite (bind_step _ (IH Hcs)). reflexivity.
Qed.

Lemma filterM_not_dead_raises (cs : list Entry) (w : world) :
  forallb has_id cs = false -> filterM not_dead cs w = (inl (KeyError "id"), w).
Proof.
  induction cs as [ | c cs IH]; simpl; [discriminate|].
  destruct (has_id c) eqn:Hc; simpl; intros Hcs.
  - rewrite (bind_step _ (not_dead_ok c w Hc)).
    now rewrite (bind_abort _ (IH Hcs)).
  - now rewrite (bind_abort _ (not_dead_raises c w Hc)).
Qed.

Lemma remove_absent (r : Registry) (w : world) :
  Dict.get "contexts" (components r) = None ->
  remove_dead_references r w
  = (inr r, printed w ["✓ Removed dead references: None"]).
Proof.
  intros H. unfold remove_dead_references. simpl foldM.
  unfold Dict.mem. rewrite H. reflexivity.
Qed.

Lemma remove_ok (r : Registry) (cs : list Entry) (w : world) :
  Dict.get "contexts" (components r) = Some cs ->
  forallb has_id cs = true ->
  remove_dead_references r w
  = (inr (with_components r (Dict.set "contexts" (filter keep cs) (components r))),
     printed w [removed_line cs]).
Proof.
  intros H Hid. unfold remove_dead_references. simpl foldM.
  unfold Dict.mem, getitem. rewrite H. mnorm.
  rewrite (bind_step _ (filterM_not_dead_ok cs w Hid)).
  unfold removed_line.
  destruct (Nat.ltb 0 _); reflexivity.
Qed.

Lemma remove_raises (r : Registry) (cs : list Entry) (w : world) :
  Dict.get "contexts" (components r) = Some cs ->
  forallb has_id cs = false ->
  remove_dead_references r w = (inl (KeyError "id"), w).
Proof.
  intros H Hid. unfold remove_dead_references. simpl foldM.
  unfold Dict.mem, getitem. rewrite H. mnorm.
  now rewrite (bind_abort _ (filterM_not_dead_raises cs w Hid)).
Qed.

(** ** add_split_file_entries, in closed form *)

Lemma new_entries_are_candidates : forallb is_candidate new_entries = true.
Proof. vm_compute. reflexivity. Qed.

Lemma candidate_fields (e : Entry) :
  is_candidate e = true ->
  exists p i, Dict.get "path" e = Some (JStr p) /\ Dict.get "id" e = Some (JStr i).
Proof.
  unfold is_candidate.
  destruct (Dict.get "path" e) as [[ | | | p | | ] | ]; try discriminate.
  destruct (Dict.get "id" e) as [[ | | | i | | ] | ]; try discriminate.
  eauto.
Qed.

Lemma verify_loop (l acc : list Entry) (w : world) :
  forallb is_candidate l = true ->
  foldM verify_step acc l w
  = (inr (acc ++ filter (on_disk w) l)%list,
     printed w (map warning (filter (missing w) l))).
Proof.
  revert acc w. induction l as [ | e l IH]; intros acc w.
  - intros _. simpl. now rewrite app_nil_r, printed_nil.
  - intros Hl. cbn [forallb] in Hl. apply andb_prop in Hl as [He Hl].
    destruct (candidate_fields e He) as (p & i & Hp & _).
    assert (Hpath : candidate_path e = p)
      by (unfold candidate_path, Dict.get_default; now rewrite Hp).
    assert (Hon : on_disk w e = path_exists w p)
      by (unfold on_disk; now rewrite Hpath).
    assert (Hmiss : missing w e = negb (path_exists w p))
      by (unfold missing; now rewrite Hon).
    assert (Hwarn : warning e = "⚠ File doesn't exist: " ++ p)
      by (unfold warning; now rewrite Hpath).
    cbn [foldM filter]. rewrite Hon, Hmiss.
    unfold verify_step at 1, getitem, as_path. rewrite Hp. mnorm.
    destruct (path_exists w p); mnorm; cbn [negb map]; rewrite (IH _ _ Hl).
    + now rewrite <- app_assoc.
    + now rewrite printed_printed, Hwarn.
Qed.

Lemma existing_ids_ok (cs : list Entry) (w : world) :
  forallb has_hashable_id cs = true ->
  mapM hashed_id cs w = (inr (ids_of cs), w).
Proof.
  induction cs as [ | c cs IH]; simpl; [reflexivity|].
  intros [Hc Hcs]%andb_prop.
  unfold hashed_id at 1, getitem, entry_id, Dict.get_default.
  unfold has_hashable_id in Hc.
  destruct (Dict.get "id" c) as [v|]; [|discriminate].
  mnorm. destruct v; try discriminate; unfold hashed; mnorm;
    now rewrite (bind_step _ (IH Hcs)).
Qed.

Lemma existing_ids_raises (cs : list Entry) (w : world) :
  forallb has_hashable_id cs = false ->
  exists e, mapM hashed_id cs w = (inl e, w).
Proof.
  induction cs as [ | c cs IH]; simpl; [discriminate|].
  unfold hashed_id at 1, getitem. unfold has_hashable_id at 1.
  destruct (Dict.get "id" c) as [v|]; simpl.
  - destruct v; simpl; intros Hcs; unfold hashed; mnorm;
      try (destruct (IH Hcs) as [e He]; exists e;
           now rewrite (bind_abort _ He));
      eauto.
  - intros _. mnorm. eauto.
Qed.

Lemma with_components_same (r : Registry) : with_components r (components r) = r.
Proof. now destruct r. Qed.

Lemma append_loop (ids : list json) (l : list Entry) :
  forallb is_candidate l = true ->
  forall (r : Registry) (cs : list Entry) (n : nat) (w : world),
    Dict.get "contexts" (components r) = Some cs ->
    foldM (append_step ids) (r, n) l w
    = (inr (with_components r
              (Dict.set "contexts" (cs ++ filter (fresh ids) l)%list (components r)),
            n + List.length (filter (fresh ids) l)),
       w).
Proof.
  induction l as [ | e l IH]; intros Hl r cs n w Hcs.
  - simpl. rewrite app_nil_r, Nat.add_0_r, (DictFacts.set_get _ _ _ Hcs).
    now rewrite with_components_same.
  - cbn [forallb] in Hl. apply andb_prop in Hl as [He Hl].
    destruct (candidate_fields e He) as (p & i & _ & Hi).
    assert (Hid : entry_id e = JStr i)
      by (unfold entry_id, Dict.get_default; now rewrite Hi).
    assert (Hfresh : fresh ids e = negb (existsb (py_eq (JStr i)) ids))
      by (unfold fresh; now rewrite Hid).
    cbn [foldM filter]. rewrite Hfresh.
    unfold append_step at 1, getitem. rewrite Hi. mnorm.
    unfold in_set, hashed. mnorm.
    destruct (existsb (py_eq (JStr i)) ids); cbn [negb]; mnorm.
    + now rewrite (IH Hl r cs n w Hcs).
    + rewrite Hcs. mnorm.
      rewrite (IH Hl _ (cs ++ [e])%list (n + 1) w)
        by (simpl; apply DictFacts.get_set_same).
      cbn [components with_components members List.length].
      rewrite DictFacts.set_set, <- app_assoc. cbn [app].
      replace (n + 1 + List.length (filter (fresh ids) l))
        with (n + S (List.length (filter (fresh ids) l))) by lia.
      reflexivity.
Qed.

Lemma forallb_filter {A} (p q : A -> bool) (l : list A) :
  forallb p l = true -> forallb p (filter q l) = true.
Proof.
  induction l as [ | x l IH]; simpl; auto.
  intros [Hx Hl]%andb_prop. destruct (q x); simpl; auto.
  now rewrite Hx, IH.
Qed.

Lemma verify_new_entries (w : world) :
  foldM verify_step [] new_entries w
  = (inr (filter (on_disk w) new_entries), printed w (warnings w)).
Proof.
  rewrite (verify_loop new_entries [] w new_entries_are_candidates).
  cbn [app]. unfold warnings. reflexivity.
Qed.

Lemma add_ok (r : Registry) (w : world) :
  forallb has_hashable_id (contexts_of r) = true ->
  add_split_file_entries r w
  = (inr (with_added w r),
     printed w (warnings w
                ++ [added_line (List.length (added_entries w (contexts_of r)))])).
Proof.
  intros Hids. unfold add_split_file_entries, with_added.
  rewrite (bind_step _ (verify_new_entries w)).
  assert (Hver : forallb is_candidate (filter (on_disk w) new_entries) = true)
    by apply forallb_filter, new_entries_are_candidates.
  unfold contexts_of, Dict.get_default, Dict.mem in *.
  destruct (Dict.get "contexts" (components r)) as [cs|] eqn:Hcs; cbn [negb].
  - unfold getitem at 1. rewrite Hcs. mnorm.
    rewrite (bind_step _ (existing_ids_ok cs _ Hids)).
    rewrite (bind_step _ (append_loop (ids_of cs) _ Hver r cs 0 _ Hcs)).
    mnorm. rewrite printed_printed.
    unfold added_entries, added_line. cbn [Nat.add]. reflexivity.
  - set (r0 := with_components r (Dict.set "contexts" [] (components r))).
    assert (H0 : Dict.get "contexts" (components r0) = Some [])
      by apply DictFacts.get_set_same.
    unfold getitem at 1. rewrite H0. mnorm. cbn [mapM]. mnorm.
    rewrite (bind_step _ (append_loop [] _ Hver r0 [] 0 _ H0)).
    mnorm. rewrite printed_printed.
    unfold r0. cbn [components with_components members].
    rewrite DictFacts.set_set.
    unfold added_entries, added_line, ids_of. cbn [Nat.add map app].
    reflexivity.
Qed.

Lemma add_raises (r : Registry) (w : world) :
  forallb has_hashable_id (contexts_of r) = false ->
  exists e, add_split_file_entries r w = (inl e, printed w (warnings w)).
Proof.
  intros Hids. unfold add_split_file_entries.
  rewrite (bind_step _ (verify_new_entries w)).
  unfold contexts_of, Dict.get_default, Dict.mem in *.
  destruct (Dict.get "contexts" (components r)) as [cs|] eqn:Hcs;
    [|discriminate].
  cbn [negb]. unfold getitem at 1. rewrite Hcs. mnorm.
  destruct (existing_ids_raises cs (printed w (warnings w)) Hids) as [e He].
  exists e. now rewrite (bind_abort _ He).
Qed.

(** ** Lists *)

Lemma filter_cons_inv {A} (p : A -> bool) (l : list A) (a : A) (y : list A) :
  filter p l = a :: y ->
  exists l1 l2, l = (l1 ++ a :: l2)%list /\ filter p l2 = y.
Proof.
  induction l as [ | c l IH]; simpl; [discriminate|].
  destruct (p c).
  - intros [= -> <-]. now exists [], l.
  - intros H. destruct (IH H) as (l1 & l2 & -> & <-).
    now exists (c :: l1), l2.
Qed.

Lemma filter_app_inv {A} (p : A -> bool) (l x y : list A) :
  filter p l = (x ++ y)%list ->
  exists lx ly, l = (lx ++ ly)%list /\ filter p lx = x /\ filter p ly = y.
Proof.
  revert x. induction l as [ | c l IH]; intros x; simpl.
  - intros H. symmetry in H. apply app_eq_nil in H as [-> ->].
    now exists [], [].
  - destruct (p c) eqn:Hc.
    + destruct x as [ | a x]; simpl.
      * intros <-. exists [], (c :: l). simpl. now rewrite Hc.
      * intros [= <- H]. destruct (IH _ H) as (lx & ly & -> & <- & <-).
        exists (c :: lx), ly. simpl. now rewrite Hc.
    + intros H. destruct (IH _ H) as (lx & ly & -> & <- & <-).
      exists (c :: lx), ly. simpl. now rewrite Hc.
Qed.

(** Filtering keeps the kept elements in the order they had. *)
Lemma before_filter {A} (p : A -> bool) (a b : A) (l : list A) :
  p a = true -> p b = true ->
  (before a b (filter p l) <-> before a b l).
Proof.
  intros Ha Hb. split.
  - intros (l1 & l2 & l3 & H).
    apply filter_app_inv in H as (lx & ly & -> & _ & H).
    apply filter_cons_inv in H as (m1 & m2 & -> & H).
    apply filter_app_inv in H as (n1 & n2 & -> & _ & H).
    apply filter_cons_inv in H as (k1 & k2 & -> & _).
    exists (lx ++ m1)%list, (n1 ++ k1)%list, k2.
    now rewrite <- !app_assoc.
  - intros (l1 & l2 & l3 & ->).
    exists (filter p l1), (filter p l2), (filter p l3).
    rewrite filter_app. simpl. rewrite Ha, filter_app. simpl. now rewrite Hb.
Qed.

(** ** The denylist *)

Lemma in_strings_In (i : string) (l : list string) :
  in_strings (JStr i) l = true <-> In i l.
Proof.
  unfold in_strings. rewrite existsb_exists. split.
  - intros (s & Hs & E). simpl in E. apply String.eqb_eq in E. now subst.
  - intros H. exists i. split; auto. simpl. apply String.eqb_refl.
Qed.

Lemma in_strings_inv (v : json) (l : list string) :
  in_strings v l = true -> exists i, v = JStr i /\ In i l.
Proof.
  unfold in_strings. rewrite existsb_exists. intros (s & Hs & E).
  destruct v; try discriminate. simpl in E. apply String.eqb_eq in E.
  subst. eauto.
Qed.

Lemma keep_false (e : Entry) : has_id e = true -> keep e = false -> denylisted e.
Proof.
  unfold has_id, Dict.mem, keep, denylisted, Dict.get_default.
  destruct (Dict.get "id" e) as [v|]; [|discriminate].
  intros _ H. apply negb_false_iff, in_strings_inv in H as (i & -> & Hi).
  eauto.
Qed.

Lemma denylisted_keep (e : Entry) : denylisted e -> keep e = false.
Proof.
  intros (i & Hid & Hi). unfold keep, Dict.get_default. rewrite Hid.
  apply negb_false_iff, in_strings_In, Hi.
Qed.

Lemma not_denylisted_keep (e : Entry) : ~ denylisted e -> keep e = true.
Proof.
  intros H. unfold keep, Dict.get_default.
  destruct (Dict.get "id" e) as [v|] eqn:E; [|reflexivity].
  apply negb_true_iff. destruct (in_strings v dead_entries) eqn:Hv; auto.
  apply in_strings_inv in Hv as (i & -> & Hi).
  exfalso. apply H. exists i. auto.
Qed.

(** What [remove_dead_references] returns when every [contexts] entry has an
    [id]: the [contexts] list filtered, everything else as it was. *)
Lemma remove_returns (r : Registry) (w : world) :
  forallb has_id (contexts_of r) = true ->
  exists r' line,
    remove_dead_references r w = (inr r', printed w [line])
    /\ contexts_of r' = filter keep (contexts_of r)
    /\ (forall category, category <> "contexts" ->
          Dict.get category (components r') = Dict.get category (components r))
    /\ Dict.keys (components r') = Dict.keys (components r)
    /\ members r' = members r.
Proof.
  unfold contexts_of, Dict.get_default.
  destruct (Dict.get "contexts" (components r)) as [cs|] eqn:Hcs; intros Hid.
  - eexists _, _. split; [apply (remove_ok r cs w Hcs Hid)|].
    cbn [components with_components members].
    rewrite DictFacts.get_set_same. repeat split.
    + intros category Hne. now apply DictFacts.get_set_other.
    + apply DictFacts.keys_set_present. unfold Dict.mem. now rewrite Hcs.
  - eexists _, _. split; [apply (remove_absent r w Hcs)|].
    rewrite Hcs. repeat split.
Qed.

(** If [remove_dead_references] returns, every [contexts] entry had an [id]. *)
Lemma remove_returned (r r' : Registry) (w w' : world) :
  remove_dead_references r w = (inr r', w') ->
  forallb has_id (contexts_of r) = true.
Proof.
  unfold contexts_of, Dict.get_default.
  destruct (Dict.get "contexts" (components r)) as [cs|] eqn:Hcs; [|reflexivity].
  destruct (forallb has_id cs) eqn:Hid; [reflexivity|].
  rewrite (remove_raises r cs w Hcs Hid). discriminate.
Qed.

(** * The claims *)

(** C2. Denylist completeness.  On a registry whose [contexts] entries all
    carry an [id] (otherwise the step raises [KeyError]),
    [remove_dead_references] returns, and in the registry it returns no entry
    of [contexts] whose [id] is in the denylist is left: none of those the
    input had, and none at all; the entries of every other category are what
    they were. *)
Theorem remove_dead_references_denylist (r : Registry) (w : world) :
  forallb has_id (contexts_of r) = true ->
  exists r' w',
    remove_dead_references r w = (inr r', w')
    /\ (forall e, In e (contexts_of r) -> denylisted e -> ~ In e (contexts_of r'))
    /\ (forall e, In e (contexts_of r') -> ~ denylisted e)
    /\ (forall category, category <> "contexts" ->
          Dict.get category (components r') = Dict.get category (components r)).
Proof.
  intros Hid.
  destruct (remove_returns r w Hid) as (r' & line & Hrun & Hctx & Hother & _).
  assert (Hgone : forall e, In e (contexts_of r') -> ~ denylisted e).
  { intros e Hin Hdead. rewrite Hctx in Hin.
    apply filter_In in Hin as [_ Hkeep].
    rewrite (denylisted_keep e Hdead) in Hkeep. discriminate. }
  exists r', (printed w [line]). repeat split; auto.
  intros e _ Hdead Hin. exact (Hgone e Hin Hdead).
Qed.

(** C10. [remove_dead_references] keeps the order of the entries it keeps:
    the [contexts] list it returns is the old one filtered, so two entries
    not in the denylist stand in the new list in the order they stood in the
    old one. *)
Theorem remove_dead_references_order (r : Registry) (w : world) :
  forallb has_id (contexts_of r) = true ->
  exists r' w',
    remove_dead_references r w = (inr r', w')
    /\ contexts_of r' = filter keep (contexts_of r)
    /\ (forall a b, ~ denylisted a -> ~ denylisted b ->
          (before a b (contexts_of r') <-> before a b (contexts_of r))).
Proof.
  intros Hid.
  destruct (remove_returns r w Hid) as (r' & line & Hrun & Hctx & _).
  exists r', (printed w [line]). repeat split; auto; rewrite Hctx.
  - now apply before_filter; apply not_denylisted_keep.
  - now apply before_filter; apply not_denylisted_keep.
Qed.

(** ** add_split_file_entries *)

Lemma filter_all {A} (p : A -> bool) (l : list A) :
  (forall x, p x = true) -> filter p l = l.
Proof.
  intros Hp. induction l as [ | x l IH]; simpl; auto.
  now rewrite Hp, IH.
Qed.

Lemma filter_twice {A} (p q : A -> bool) (l : list A) :
  filter p (filter q l) = filter (fun x => q x && p x) l.
Proof.
  induction l as [ | x l IH]; simpl; auto.
  destruct (q x); simpl; [destruct (p x)|]; now rewrite IH.
Qed.

(** What [add_split_file_entries] returns when the ids already in
    [contexts] can be put in a set. *)
Lemma add_returns (r : Registry) (w : world) :
  forallb has_hashable_id (contexts_of r) = true ->
  exists r',
    add_split_file_entries r w
    = (inr r',
       printed w (warnings w
                  ++ [added_line (List.length (added_entries w (contexts_of r)))]))
    /\ Dict.get "contexts" (components r')
       = Some (contexts_of r ++ added_entries w (contexts_of r))%list
    /\ (forall category, category <> "contexts" ->
          Dict.get category (components r') = Dict.get category (components r))
    /\ Dict.keys (components r')
       = (if Dict.mem "contexts" (components r) then Dict.keys (components r)
          else Dict.keys (components r) ++ ["contexts"])%list
    /\ members r' = members r.
Proof.
  intros Hids. exists (with_added w r). split; [now apply add_ok|].
  unfold with_added. cbn [components with_components members].
  rewrite DictFacts.get_set_same. repeat split.
  - intros category Hne. now apply DictFacts.get_set_other.
  - destruct (Dict.mem "contexts" (components r)) eqn:Hmem.
    + now apply DictFacts.keys_set_present.
    + now apply DictFacts.keys_set_absent.
Qed.

(** If [add_split_file_entries] returns, the ids could be put in a set. *)
Lemma add_returned (r r' : Registry) (w w' : world) :
  add_split_file_entries r w = (inr r', w') ->
  forallb has_hashable_id (contexts_of r) = true.
Proof.
  destruct (forallb has_hashable_id (contexts_of r)) eqn:Hids; [reflexivity|].
  destruct (add_raises r w Hids) as [e ->]. discriminate.
Qed.

Lemma contexts_of_get (r : Registry) (cs : list Entry) :
  Dict.get "contexts" (components r) = Some cs -> contexts_of r = cs.
Proof. unfold contexts_of, Dict.get_default. now intros ->. Qed.

(** C9. [add_split_file_entries] on a registry without a [contexts] key does
    not raise: it returns a registry whose [contexts] holds the candidates
    whose files exist; and whenever it returns, [components] has a
    [contexts] key. *)
Theorem add_split_file_entries_creates_contexts (r : Registry) (w : world) :
  (Dict.mem "contexts" (components r) = false ->
   exists r' w',
     add_split_file_entries r w = (inr r', w')
     /\ Dict.get "contexts" (components r')
        = Some (filter (on_disk w) new_entries))
  /\ (forall r' w',
        add_split_file_entries r w = (inr r', w') ->
        Dict.mem "contexts" (components r') = true).
Proof.
  split.
  - intros Hmem.
    assert (Hcs : contexts_of r = []).
    { unfold contexts_of, Dict.get_default. unfold Dict.mem in Hmem.
      now destruct (Dict.get "contexts" (components r)). }
    assert (Hids : forallb has_hashable_id (contexts_of r) = true)
      by now rewrite Hcs.
    destruct (add_returns r w Hids) as (r' & Hrun & Hctx & _).
    eexists _, _. split; [exact Hrun|].
    rewrite Hctx, Hcs. cbn [app]. unfold added_entries, ids_of. cbn [map].
    f_equal. now apply filter_all.
  - intros r' w' Hrun.
    pose proof (add_returned r r' w w' Hrun) as Hids.
    destruct (add_returns r w Hids) as (r1 & Hrun1 & Hctx & _).
    rewrite Hrun in Hrun1. injection Hrun1 as -> _.
    unfold Dict.mem. now rewrite Hctx.
Qed.

(** C7. [add_split_file_entries] only appends to [contexts]: the entries
    that were in [contexts] stay, in their order, at the front; what follows
    them is a selection of the candidates in the order of [new_entries]; the
    entries of every other category, the order of the categories and the
    other members of the document are unchanged. *)
Theorem add_split_file_entries_appends (r : Registry) (w : world) :
  forallb has_hashable_id (contexts_of r) = true ->
  exists r' w' (chosen : Entry -> bool),
    add_split_file_entries r w = (inr r', w')
    /\ contexts_of r' = (contexts_of r ++ filter chosen new_entries)%list
    /\ (forall category, category <> "contexts" ->
          Dict.get category (components r') = Dict.get category (components r))
    /\ (forall category, Dict.mem category (components r) = true ->
          Dict.mem category (components r') = true)
    /\ Dict.keys (components r')
       = (if Dict.mem "contexts" (components r) then Dict.keys (components r)
          else Dict.keys (components r) ++ ["contexts"])%list
    /\ members r' = members r.
Proof.
  intros Hids.
  destruct (add_returns r w Hids) as (r' & Hrun & Hctx & Hother & Hkeys & Hmem).
  eexists r', _, (fun e => on_disk w e && fresh (ids_of (contexts_of r)) e).
  split; [exact Hrun|]. repeat split; auto.
  - rewrite (contexts_of_get r' _ Hctx). unfold added_entries.
    now rewrite filter_twice.
  - intros category Hc.
    destruct (String.eqb category "contexts") eqn:E.
    + apply String.eqb_eq in E. subst. unfold Dict.mem. now rewrite Hctx.
    + apply String.eqb_neq in E. unfold Dict.mem in *.
      now rewrite (Hother _ E).
Qed.

Lemma distinct_NoDup (l : list string) : distinct l = true -> NoDup l.
Proof.
  induction l as [ | x l IH]; simpl; [constructor|].
  intros [Hx Hl]%andb_prop. constructor; auto.
  intros Hin. apply negb_true_iff in Hx.
  assert (existsb (String.eqb x) l = true)
    by (apply existsb_exists; exists x; split; auto; apply String.eqb_refl).
  congruence.
Qed.

Lemma NoDup_map_injective {A B} (f : A -> B) (l : list A) (a b : A) :
  NoDup (map f l) -> In a l -> In b l -> f a = f b -> a = b.
Proof.
  induction l as [ | x l IH]; simpl; [contradiction|].
  intros Hnd Ha Hb E. inversion_clear Hnd as [ | ? ? Hx Hl].
  destruct Ha as [-> | Ha], Hb as [-> | Hb]; auto.
  - exfalso. apply Hx. rewrite E. now apply in_map.
  - exfalso. apply Hx. rewrite <- E. now apply in_map.
Qed.

(** No two candidates share an id. *)
Lemma new_entries_ids_distinct : NoDup (map candidate_id new_entries).
Proof. apply distinct_NoDup. vm_compute. reflexivity. Qed.

Lemma same_id_same_candidate (a b : Entry) :
  In a new_entries -> In b new_entries -> entry_id a = entry_id b -> a = b.
Proof.
  intros Ha Hb E.
  apply (NoDup_map_injective candidate_id new_entries a b
           new_entries_ids_distinct Ha Hb).
  unfold candidate_id. now rewrite E.
Qed.

Lemma added_entries_In (w : world) (cs : list Entry) (e : Entry) :
  In e (added_entries w cs) ->
  In e new_entries /\ on_disk w e = true /\ fresh (ids_of cs) e = true.
Proof. unfold added_entries. rewrite !filter_In. tauto. Qed.

(** C3. Existence gate.  For a candidate whose file does not exist,
    [add_split_file_entries] (run on a registry whose [contexts] ids can be
    put in a set, which is what keeps it from raising) prints the warning
    naming the candidate's path and appends no entry with the candidate's
    id to [contexts]. *)
Theorem add_split_file_entries_existence_gate
    (r : Registry) (w : world) (c : Entry) :
  In c new_entries ->
  path_exists w (candidate_path c) = false ->
  forallb has_hashable_id (contexts_of r) = true ->
  exists r' lines appended,
    add_split_file_entries r w = (inr r', printed w lines)
    /\ contexts_of r' = (contexts_of r ++ appended)%list
    /\ (forall e, In e appended -> entry_id e <> entry_id c)
    /\ In ("⚠ File doesn't exist: " ++ candidate_path c) lines.
Proof.
  intros Hc Hmissing Hids.
  destruct (add_returns r w Hids) as (r' & Hrun & Hctx & _).
  eexists r', _, (added_entries w (contexts_of r)).
  split; [exact Hrun|]. repeat split.
  - now apply contexts_of_get.
  - intros e He E. apply added_entries_In in He as (He & Hdisk & _).
    rewrite (same_id_same_candidate e c He Hc E) in Hdisk.
    unfold on_disk in Hdisk. congruence.
  - apply in_or_app. left. unfold warnings.
    change ("⚠ File doesn't exist: " ++ candidate_path c) with (warning c).
    apply in_map, filter_In. split; auto.
    unfold missing, on_disk. now rewrite Hmissing.
Qed.

(** ** str.replace *)

Lemma length_app (a b : string) :
  String.length (a ++ b) = String.length a + String.length b.
Proof. induction a as [ | c a IH]; simpl; auto. Qed.

Lemma length_drop (n : nat) (s : string) :
  String.length (drop n s) = String.length s - n.
Proof.
  revert s. induction n as [ | n IH]; intros [ | c s]; simpl; auto.
Qed.

Lemma prefix_length (old s : string) :
  String.prefix old s = true -> String.length old <= String.length s.
Proof.
  revert s. induction old as [ | c old IH]; intros s; simpl; [lia|].
  destruct s as [ | c' s]; simpl; [discriminate|].
  destruct (Ascii.ascii_dec c c'); [|discriminate].
  intros H. apply IH in H. lia.
Qed.

Lemma prefix_app (old s : string) : String.prefix old (old ++ s) = true.
Proof.
  induction old as [ | c old IH]; simpl; [now destruct s|].
  destruct (Ascii.ascii_dec c c); auto.
Qed.

Lemma drop_app (a s : string) : drop (String.length a) (a ++ s) = s.
Proof. induction a as [ | c a IH]; simpl; auto. Qed.

Section Replace.

Variables old new : string.

(** Dropping the rest of a matched occurrence, then going on. *)
Lemma replace_from_skip (k : nat) (s : string) :
  replace_from old new k s = replace_from old new 0 (drop k s).
Proof.
  revert k. induction s as [ | c s IH]; intros [ | k]; simpl; auto.
Qed.

(** The equation of [replace_from] at a position where [old] starts. *)
Lemma replace_from_match (c : ascii) (s : string) :
  String.prefix old (String c s) = true ->
  replace_from old new 0 (String c s)
  = new ++ replace_from old new 0 (drop (String.length old - 1) s).
Proof.
  intros H. cbn [replace_from]. rewrite H. now rewrite replace_from_skip.
Qed.

Lemma replace_from_no_match (c : ascii) (s : string) :
  String.prefix old (String c s) = false ->
  replace_from old new 0 (String c s) = String c (replace_from old new 0 s).
Proof. intros H. cbn [replace_from]. now rewrite H. Qed.

(** A string in which [old] does not occur is left as it is. *)
Lemma replace_from_absent (s : string) :
  occurs old s = false -> replace_from old new 0 s = s.
Proof.
  induction s as [ | c s IH]; auto.
  cbn [occurs]. intros [Hp Hs]%orb_false_elim.
  rewrite (replace_from_no_match c s Hp). now rewrite IH.
Qed.

Hypothesis old_not_empty : 0 < String.length old.

(** [old] at the head of a string is replaced, whatever follows it. *)
Lemma replace_from_head (s : string) :
  replace_from old new 0 (old ++ s) = new ++ replace_from old new 0 s.
Proof.
  pose proof (prefix_app old s) as Hp.
  destruct old as [ | c o] eqn:E; [simpl in old_not_empty; lia|].
  cbn [append] in *. rewrite <- E in *.
  rewrite (replace_from_match c (o ++ s)); [ | now rewrite E in *].
  do 2 f_equal. rewrite E. cbn [String.length]. rewrite Nat.sub_1_r.
  cbn [Nat.pred]. apply drop_app.
Qed.

Hypothesis not_shorter : String.length old <= String.length new.

(** When [new] is not shorter than [old], replacing shortens nothing. *)
Lemma replace_from_length_le (n : nat) (s : string) :
  String.length s <= n ->
  String.length s <= String.length (replace_from old new 0 s).
Proof.
  revert s. induction n as [ | n IH]; intros [ | c s]; cbn [String.length];
    try lia.
  intros Hn. destruct (String.prefix old (String c s)) eqn:Hp.
  - rewrite (replace_from_match c s Hp), length_app.
    pose proof (prefix_length _ _ Hp) as Hl. cbn [String.length] in Hl.
    assert (Hd : String.length (drop (String.length old - 1) s) <= n)
      by (rewrite length_drop; lia).
    apply IH in Hd. rewrite length_drop in Hd. lia.
  - rewrite (replace_from_no_match c s Hp). cbn [String.length].
    assert (Hs : String.length s <= n) by lia.
    apply IH in Hs. lia.
Qed.

Hypothesis longer : String.length old < String.length new.

(** When [new] is longer than [old], a string in which [old] occurs gets
    longer: it is changed. *)
Lemma replace_from_length_lt (s : string) :
  occurs old s = true ->
  String.length s < String.length (replace_from old new 0 s).
Proof.
  induction s as [ | c s IH].
  - simpl. destruct old; [simpl in old_not_empty; lia | discriminate].
  - cbn [occurs]. destruct (String.prefix old (String c s)) eqn:Hp.
    + intros _. rewrite (replace_from_match c s Hp), length_app.
      pose proof (prefix_length _ _ Hp) as Hl. cbn [String.length] in *.
      pose proof (replace_from_length_le
                    (String.length (drop (String.length old - 1) s))
                    (drop (String.length old - 1) s) (le_n _)) as Hd.
      rewrite length_drop in Hd. lia.
    + simpl orb. intros Hs. apply IH in Hs.
      rewrite (replace_from_no_match c s Hp). cbn [String.length]. lia.
Qed.

End Replace.

Lemma replace_nonempty (old new s : string) :
  0 < String.length old -> replace old new s = replace_from old new 0 s.
Proof. destruct old; simpl; [lia | reflexivity]. Qed.

(** ** update_dependencies *)

Lemma silent_world {A} (m : M A) (w w' : world) (res : exn + A) :
  silent m -> m w = (res, w') -> w' = w.
Proof.
  intros Hm Hrun. destruct (Hm _ _ _ Hrun) as (lines & -> & Hl).
  destruct lines as [ | l lines]; [apply printed_nil|].
  now inversion Hl.
Qed.

Lemma silent_rewrite_dependencies (old new : string) (e : Entry) :
  silent (rewrite_dependencies old new e).
Proof. unfold silent, rewrite_dependencies. prints_tac. Qed.

Lemma silent_update_context (ctx : Entry) : silent (update_context ctx).
Proof.
  unfold silent, update_context.
  destruct (Dict.mem "dependencies" ctx); [|apply prints_ret].
  repeat (apply prints_bind; [apply silent_rewrite_dependencies | intro]).
  apply silent_rewrite_dependencies.
Qed.

Lemma sbd_get (e e' : Entry) (k : string) :
  same_but_dependencies e e' -> k <> "dependencies" ->
  Dict.get k e' = Dict.get k e.
Proof.
  intros [ | v _] Hk; auto. now apply DictFacts.get_set_other.
Qed.

Lemma sbd_keys (e e' : Entry) :
  same_but_dependencies e e' -> Dict.keys e' = Dict.keys e.
Proof. intros [ | v Hm]; auto. now apply DictFacts.keys_set_present. Qed.

Lemma sbd_id (e e' : Entry) : same_but_dependencies e e' -> entry_id e' = entry_id e.
Proof.
  intros H. unfold entry_id, Dict.get_default.
  now rewrite (sbd_get e e' "id" H) by discriminate.
Qed.

Lemma sbd_trans (e1 e2 e3 : Entry) :
  same_but_dependencies e1 e2 -> same_but_dependencies e2 e3 ->
  same_but_dependencies e1 e3.
Proof.
  intros [ | v Hm] H; auto. inversion_clear H as [ | v' _].
  - now constructor.
  - rewrite DictFacts.set_set. now constructor.
Qed.

Lemma mapM_str_replace (old new : string) (ds : list string) (w : world) :
  mapM (str_replace old new) (map JStr ds) w
  = (inr (map JStr (map (replace old new) ds)), w).
Proof.
  induction ds as [ | d ds IH]; [reflexivity|].
  cbn [map mapM]. unfold str_replace at 1. mnorm.
  now rewrite (bind_step _ IH).
Qed.

(** One rewrite on an entry whose dependencies are a list of strings. *)
Lemma rewrite_dependencies_strings
    (old new : string) (e : Entry) (ds : list string) (w : world) :
  Dict.get "dependencies" e = Some (JArr (map JStr ds)) ->
  rewrite_dependencies old new e w
  = (inr (Dict.set "dependencies" (JArr (map JStr (map (replace old new) ds))) e),
     w).
Proof.
  intros H. unfold rewrite_dependencies, getitem. rewrite H. mnorm.
  unfold iter. mnorm. now rewrite (bind_step _ (mapM_str_replace old new ds w)).
Qed.

Lemma rewrite_dependencies_inv
    (old new : string) (e e' : Entry) (w w' : world) :
  rewrite_dependencies old new e w = (inr e', w') ->
  same_but_dependencies e e'.
Proof.
  unfold rewrite_dependencies, getitem. intros H.
  destruct (Dict.get "dependencies" e) as [v|] eqn:E; [|discriminate].
  apply bind_ok in H as (v' & w1 & [= <- <-] & H).
  apply bind_ok in H as (items & w2 & _ & H).
  apply bind_ok in H as (deps' & w3 & _ & [= <- _]).
  constructor. unfold Dict.mem. now rewrite E.
Qed.

(** [update_context] on an entry whose dependencies are a list of strings. *)
Lemma update_context_strings (ctx : Entry) (ds : list string) (w : world) :
  Dict.get "dependencies" ctx = Some (JArr (map JStr ds)) ->
  update_context ctx w
  = (inr (Dict.set "dependencies"
            (JArr (map JStr (map rewrite_context_dep ds))) ctx),
     w).
Proof.
  intros H. unfold update_context, Dict.mem. rewrite H.
  rewrite (bind_step _ (rewrite_dependencies_strings _ _ ctx ds w H)).
  rewrite (bind_step _ (rewrite_dependencies_strings _ _ _ _ w
                          (DictFacts.get_set_same _ _ _))).
  rewrite (rewrite_dependencies_strings _ _ _ _ w
             (DictFacts.get_set_same _ _ _)).
  rewrite !DictFacts.set_set, !map_map. reflexivity.
Qed.

Lemma update_context_inv (ctx ctx' : Entry) (w w' : world) :
  update_context ctx w = (inr ctx', w') -> same_but_dependencies ctx ctx'.
Proof.
  unfold update_context.
  destruct (Dict.mem "dependencies" ctx); [|intros [= <- _]; constructor].
  intros H.
  apply bind_ok in H as (c1 & w1 & H1%rewrite_dependencies_inv & H).
  apply bind_ok in H as (c2 & w2 & H2%rewrite_dependencies_inv & H).
  apply rewrite_dependencies_inv in H.
  eauto using sbd_trans.
Qed.

Lemma update_agent_inv (agent agent' : Entry) (w w' : world) :
  update_agent agent w = (inr agent', w') -> same_but_dependencies agent agent'.
Proof.
  unfold update_agent. intros H.
  apply bind_ok in H as (id & w1 & _ & H).
  destruct (py_eq id (JStr "opencoder")); [|injection H as <- _; constructor].
  apply bind_ok in H as (a1 & w2 & H1%rewrite_dependencies_inv & H).
  apply bind_ok in H as (id' & w3 & _ & H).
  apply bind_ok in H as (u & w4 & _ & [= <- _]). exact H1.
Qed.

(** [update_agent] on the agent [opencoder] with a list of strings for
    dependencies. *)
Lemma update_agent_opencoder (agent : Entry) (ds : list string) (w : world) :
  Dict.get "id" agent = Some (JStr "opencoder") ->
  Dict.get "dependencies" agent = Some (JArr (map JStr ds)) ->
  update_agent agent w
  = (inr (Dict.set "dependencies"
            (JArr (map JStr (map rewrite_agent_dep ds))) agent),
     printed w ["✓ Updated dependencies for agent: opencoder"]).
Proof.
  intros Hid Hdeps. unfold update_agent, getitem at 1. rewrite Hid. mnorm.
  cbn [py_eq]. rewrite String.eqb_refl.
  rewrite (bind_step _ (rewrite_dependencies_strings _ _ agent ds w Hdeps)).
  unfold getitem. rewrite DictFacts.get_set_other, Hid by discriminate.
  mnorm. reflexivity.
Qed.

(** [update_agent] leaves any other agent alone. *)
Lemma update_agent_other (agent : Entry) (id : json) (w : world) :
  Dict.get "id" agent = Some id ->
  py_eq id (JStr "opencoder") = false ->
  update_agent agent w = (inr agent, w).
Proof.
  intros Hid Hne. unfold update_agent, getitem. rewrite Hid. mnorm.
  now rewrite Hne.
Qed.

(** What a successful [mapM] says of each element. *)
Lemma mapM_Forall2 {A B} (f : A -> M B) (l : list A) (l' : list B) (w w' : world) :
  mapM f l w = (inr l', w') ->
  Forall2 (fun x y => exists w1 w2, f x w1 = (inr y, w2)) l l'.
Proof.
  revert l' w. induction l as [ | x l IH]; intros l' w; simpl.
  - intros [= <- _]. constructor.
  - intros H. apply bind_ok in H as (y & w1 & Hy & H).
    apply bind_ok in H as (ys & w2 & Hys & [= <- <-]).
    constructor.
    + now exists w, w1.
    + apply (IH ys w1 Hys).
Qed.

Lemma Forall2_impl {A B} (R S : A -> B -> Prop) (l : list A) (l' : list B) :
  (forall x y, R x y -> S x y) -> Forall2 R l l' -> Forall2 S l l'.
Proof. intros HRS H. induction H; constructor; auto. Qed.

Lemma Forall2_nth_error {A B} (R : A -> B -> Prop) (l : list A) (l' : list B)
    (n : nat) (x : A) :
  Forall2 R l l' -> nth_error l n = Some x ->
  exists y, nth_error l' n = Some y /\ R x y.
Proof.
  intros H. revert n. induction H as [ | a b l l' Hab _ IH]; intros [ | n]; simpl;
    try discriminate.
  - intros [= <-]. eauto.
  - apply IH.
Qed.

Lemma Forall2_refl {A} (R : A -> A -> Prop) (l : list A) :
  (forall x, R x x) -> Forall2 R l l.
Proof. intros HR. induction l; constructor; auto. Qed.

(** The loop over one category: the other categories, the order of the
    categories and the other members stay; each entry of the category is
    replaced by what the body made of it. *)
Lemma for_each_in_inv (category : string) (body : Entry -> M Entry)
    (r r' : Registry) (w w' : world) :
  for_each_in category body r w = (inr r', w') ->
  (forall c, c <> category ->
     Dict.get c (components r') = Dict.get c (components r))
  /\ match Dict.get category (components r) with
     | Some es =>
         exists es', Dict.get category (components r') = Some es'
           /\ Forall2 (fun x y => exists w1 w2, body x w1 = (inr y, w2)) es es'
     | None => Dict.get category (components r') = None
     end
  /\ Dict.keys (components r') = Dict.keys (components r)
  /\ members r' = members r.
Proof.
  unfold for_each_in.
  destruct (Dict.get category (components r)) as [es|] eqn:E.
  - intros H. apply bind_ok in H as (es' & w1 & Hes & [= <- _]).
    cbn [components with_components members]. repeat split.
    + intros c Hc. now apply DictFacts.get_set_other.
    + exists es'. split; [apply DictFacts.get_set_same|].
      eapply mapM_Forall2, Hes.
    + apply DictFacts.keys_set_present. unfold Dict.mem. now rewrite E.
  - intros [= <- _]. repeat split; auto.
Qed.

Lemma updated_sbd (category : string) (e e' : Entry) :
  updated category e e' -> same_but_dependencies e e'.
Proof.
  unfold updated.
  destruct (String.eqb category "agents");
    [intros (w1 & w2 & H); eapply update_agent_inv, H|].
  destruct (String.eqb category "contexts");
    [intros (w1 & w2 & H); eapply update_context_inv, H|].
  intros ->. constructor.
Qed.

Lemma update_dependencies_inv (r r' : Registry) (w w' : world) :
  update_dependencies r w = (inr r', w') ->
  (forall category,
     match Dict.get category (components r) with
     | Some es =>
         exists es', Dict.get category (components r') = Some es'
           /\ Forall2 (updated category) es es'
     | None => Dict.get category (components r') = None
     end)
  /\ Dict.keys (components r') = Dict.keys (components r)
  /\ members r' = members r.
Proof.
  unfold update_dependencies. intros H.
  apply bind_ok in H as (r1 & w1 & H1 & H).
  apply bind_ok in H as (r2 & w2 & H2 & H).
  apply bind_ok in H as (u & w3 & _ & [= <- _]).
  apply for_each_in_inv in H1 as (Ho1 & Hc1 & Hk1 & Hm1).
  apply for_each_in_inv in H2 as (Ho2 & Hc2 & Hk2 & Hm2).
  split; [|split; congruence].
  intros category. unfold updated.
  destruct (String.eqb category "agents") eqn:Ea.
  - apply String.eqb_eq in Ea. subst category.
    rewrite (Ho2 "agents") by discriminate.
    destruct (Dict.get "agents" (components r)); auto.
  - apply String.eqb_neq in Ea. rewrite <- (Ho1 category Ea).
    destruct (String.eqb category "contexts") eqn:Ec.
    + apply String.eqb_eq in Ec. subst category.
      destruct (Dict.get "contexts" (components r1)); auto.
    + apply String.eqb_neq in Ec. rewrite (Ho2 category Ec).
      destruct (Dict.get category (components r1)) as [es|]; auto.
      exists es. split; auto. now apply Forall2_refl.
Qed.

Lemma contexts_of_nth (r : Registry) (n : nat) (e : Entry) :
  nth_error (contexts_of r) n = Some e ->
  exists cs, Dict.get "contexts" (components r) = Some cs
             /\ nth_error cs n = Some e.
Proof.
  unfold contexts_of, Dict.get_default.
  destruct (Dict.get "contexts" (components r)) as [cs|]; eauto.
  now destruct n.
Qed.

Lemma agents_of_nth (r : Registry) (n : nat) (e : Entry) :
  nth_error (agents_of r) n = Some e ->
  exists cs, Dict.get "agents" (components r) = Some cs
             /\ nth_error cs n = Some e.
Proof.
  unfold agents_of, Dict.get_default.
  destruct (Dict.get "agents" (components r)) as [cs|]; eauto.
  now destruct n.
Qed.

(** The three rules of [update_context] make a string longer whenever one of
    the old substrings occurs in it. *)
Lemma rewrite_context_dep_longer (dep : string) :
  occurs "context:external-libraries" dep
  || occurs "context:adding-agent" dep
  || occurs "context:adding-skill" dep = true ->
  String.length dep < String.length (rewrite_context_dep dep).
Proof.
  unfold rewrite_context_dep. rewrite !replace_nonempty by (simpl; lia).
  set (r1 := replace_from "context:external-libraries"
               "context:external-libraries-workflow" 0).
  set (r2 := replace_from "context:adding-agent" "context:adding-agent-basics" 0).
  set (r3 := replace_from "context:adding-skill" "context:adding-skill-basics" 0).
  assert (L1 : forall s, String.length s <= String.length (r1 s))
    by (intros s; apply (replace_from_length_le _ _) with (n := String.length s);
        simpl; lia).
  assert (L2 : forall s, String.length s <= String.length (r2 s))
    by (intros s; apply (replace_from_length_le _ _) with (n := String.length s);
        simpl; lia).
  assert (L3 : forall s, String.length s <= String.length (r3 s))
    by (intros s; apply (replace_from_length_le _ _) with (n := String.length s);
        simpl; lia).
  destruct (occurs "context:external-libraries" dep) eqn:O1.
  - intros _.
    assert (String.length dep < String.length (r1 dep))
      by (apply replace_from_length_lt; simpl; auto; lia).
    specialize (L2 (r1 dep)). specialize (L3 (r2 (r1 dep))). lia.
  - assert (E1 : r1 dep = dep) by (apply replace_from_absent, O1).
    rewrite E1.
    destruct (occurs "context:adding-agent" dep) eqn:O2.
    + intros _.
      assert (String.length dep < String.length (r2 dep))
        by (apply replace_from_length_lt; simpl; auto; lia).
      specialize (L3 (r2 dep)). lia.
    + assert (E2 : r2 dep = dep) by (apply replace_from_absent, O2).
      rewrite E2. simpl orb. intros O3.
      apply replace_from_length_lt; simpl; auto; lia.
Qed.

(** C4. The rewriting of [contexts] dependencies goes by substring.  After
    [update_dependencies], every [contexts] entry whose dependencies are a
    list of strings has each of them rewritten by the three rules in turn;
    a string in which the old substring of one of the rules occurs comes out
    changed; and a rule whose old substring is the head of a longer
    identifier rewrites that identifier too: [context:adding-agent-extra]
    becomes [context:adding-agent-basics-extra]. *)
Theorem update_dependencies_substring (r r' : Registry) (w w' : world) :
  update_dependencies r w = (inr r', w') ->
  (forall n ctx deps,
     nth_error (contexts_of r) n = Some ctx ->
     Dict.get "dependencies" ctx = Some (JArr (map JStr deps)) ->
     nth_error (contexts_of r') n
     = Some (Dict.set "dependencies"
               (JArr (map JStr (map rewrite_context_dep deps))) ctx))
  /\ (forall dep,
        occurs "context:external-libraries" dep
        || occurs "context:adding-agent" dep
        || occurs "context:adding-skill" dep = true ->
        rewrite_context_dep dep <> dep)
  /\ (forall old new rest,
        0 < String.length old ->
        replace old new (old ++ rest) = new ++ replace old new rest)
  /\ rewrite_context_dep "context:adding-agent-extra"
     = "context:adding-agent-basics-extra".
Proof.
  intros Hrun. apply update_dependencies_inv in Hrun as (Hcat & _).
  split; [|split; [|split]].
  - intros n ctx deps Hn Hdeps.
    apply contexts_of_nth in Hn as (cs & Hcs & Hn).
    specialize (Hcat "contexts"). rewrite Hcs in Hcat.
    destruct Hcat as (cs' & Hcs' & Hall).
    destruct (Forall2_nth_error _ _ _ n ctx Hall Hn) as (ctx' & Hn' & Hup).
    rewrite (contexts_of_get r' _ Hcs'), Hn'. f_equal.
    unfold updated in Hup. cbn [String.eqb Ascii.eqb Bool.eqb] in Hup.
    destruct Hup as (w1 & w2 & Hup).
    rewrite (update_context_strings ctx deps w1 Hdeps) in Hup.
    now injection Hup as <- _.
  - intros dep Hocc E. apply rewrite_context_dep_longer in Hocc.
    rewrite E in Hocc. lia.
  - intros old new rest Hold. rewrite !replace_nonempty by assumption.
    now apply replace_from_head.
  - vm_compute. reflexivity.
Qed.

(** ** The three steps together *)

Lemma remove_inv (r r' : Registry) (w w' : world) :
  remove_dead_references r w = (inr r', w') ->
  contexts_of r' = filter keep (contexts_of r)
  /\ (forall category, category <> "contexts" ->
        Dict.get category (components r') = Dict.get category (components r))
  /\ Dict.keys (components r') = Dict.keys (components r)
  /\ members r' = members r.
Proof.
  intros Hrun. pose proof (remove_returned r r' w w' Hrun) as Hid.
  destruct (remove_returns r w Hid) as (r1 & line & Hrun1 & H).
  rewrite Hrun in Hrun1. now injection Hrun1 as -> _.
Qed.

Lemma add_inv (r r' : Registry) (w w' : world) :
  add_split_file_entries r w = (inr r', w') ->
  Dict.get "contexts" (components r')
  = Some (contexts_of r ++ added_entries w (contexts_of r))%list
  /\ (forall category, category <> "contexts" ->
        Dict.get category (components r') = Dict.get category (components r))
  /\ members r' = members r.
Proof.
  intros Hrun. pose proof (add_returned r r' w w' Hrun) as Hids.
  destruct (add_returns r w Hids) as (r1 & Hrun1 & H1 & H2 & _ & H3).
  rewrite Hrun in Hrun1. now injection Hrun1 as -> _.
Qed.

Lemma fix_steps_inv (r r' : Registry) (w w' : world) :
  fix_steps r w = (inr r', w') ->
  exists r1 r2 w1 w2,
    remove_dead_references r w = (inr r1, w1)
    /\ add_split_file_entries r1 w1 = (inr r2, w2)
    /\ update_dependencies r2 w2 = (inr r', w').
Proof.
  unfold fix_steps. intros H.
  apply bind_ok in H as (r1 & w1 & H1 & H).
  apply bind_ok in H as (r2 & w2 & H2 & H).
  now exists r1, r2, w1, w2.
Qed.

(** The first two steps leave every category but [contexts] alone. *)
Lemma fix_steps_other_category (r r' : Registry) (w w' : world) (category : string) :
  fix_steps r w = (inr r', w') ->
  category <> "contexts" ->
  match Dict.get category (components r) with
  | Some es =>
      exists es', Dict.get category (components r') = Some es'
        /\ Forall2 (updated category) es es'
  | None => Dict.get category (components r') = None
  end.
Proof.
  intros H Hc. apply fix_steps_inv in H as (r1 & r2 & w1 & w2 & H1 & H2 & H3).
  apply remove_inv in H1 as (_ & H1 & _). apply add_inv in H2 as (_ & H2 & _).
  apply update_dependencies_inv in H3 as (H3 & _).
  specialize (H3 category). now rewrite (H2 _ Hc), (H1 _ Hc) in H3.
Qed.


Lemma is_str_list_inv (v : json) :
  is_str_list v = true -> exists ds, v = JArr (map JStr ds).
Proof.
  destruct v as [ | | | | l | ]; try discriminate. simpl.
  induction l as [ | x l IH]; [now exists []|].
  cbn [forallb]. intros [Hx Hl]%andb_prop.
  destruct (IH Hl) as (ds & [= ->]).
  destruct x as [ | | | d | | ]; try discriminate.
  now exists (d :: ds).
Qed.

Lemma forallb_impl {A} (p q : A -> bool) (l : list A) :
  (forall x, p x = true -> q x = true) ->
  forallb p l = true -> forallb q l = true.
Proof.
  intros Hpq. induction l as [ | x l IH]; simpl; auto.
  intros [Hx Hl]%andb_prop. now rewrite (Hpq x Hx), IH.
Qed.

Lemma mapM_total {A B} (f : A -> M B) (l : list A) :
  (forall x, In x l -> forall w, exists y w', f x w = (inr y, w')) ->
  forall w, exists l' w', mapM f l w = (inr l', w').
Proof.
  induction l as [ | x l IH]; intros Hf w; simpl.
  - now exists [], w.
  - destruct (Hf x (or_introl eq_refl) w) as (y & w1 & Hy).
    destruct (IH (fun z Hz => Hf z (or_intror Hz)) w1) as (ys & w2 & Hys).
    exists (y :: ys), w2. rewrite (bind_step _ Hy), (bind_step _ Hys).
    reflexivity.
Qed.

Lemma update_context_total (ctx : Entry) (w : world) :
  well_formed_context ctx = true ->
  exists ctx', update_context ctx w = (inr ctx', w).
Proof.
  unfold well_formed_context.
  destruct (Dict.get "id" ctx) as [[ | | | i | | ] | ]; try discriminate.
  destruct (Dict.get "dependencies" ctx) as [v|] eqn:E.
  - intros (ds & ->)%is_str_list_inv.
    eexists. apply (update_context_strings ctx ds w E).
  - intros _. exists ctx. unfold update_context, Dict.mem. now rewrite E.
Qed.

Lemma update_agent_total (agent : Entry) (w : world) :
  well_formed_agent agent = true ->
  exists agent' w', update_agent agent w = (inr agent', w').
Proof.
  unfold well_formed_agent.
  destruct (Dict.get "id" agent) as [[ | | | i | | ] | ] eqn:Hid;
    try discriminate.
  destruct (String.eqb i "opencoder") eqn:Hi.
  - apply String.eqb_eq in Hi. subst i.
    destruct (Dict.get "dependencies" agent) as [v|] eqn:E; [|discriminate].
    intros (ds & ->)%is_str_list_inv.
    eexists _, _. apply (update_agent_opencoder agent ds w Hid E).
  - intros _. exists agent, w.
    apply (update_agent_other agent (JStr i) w Hid Hi).
Qed.

Lemma for_each_in_total (category : string) (body : Entry -> M Entry)
    (r : Registry) :
  (forall e, In e (Dict.get_default category [] (components r)) ->
     forall w, exists e' w', body e w = (inr e', w')) ->
  forall w, exists r' w', for_each_in category body r w = (inr r', w').
Proof.
  unfold for_each_in, Dict.get_default.
  destruct (Dict.get category (components r)) as [es|]; intros Hbody w.
  - destruct (mapM_total body es Hbody w) as (es' & w' & Hes).
    eexists _, w'. now rewrite (bind_step _ Hes).
  - now exists r, w.
Qed.

Lemma new_entries_well_formed : forallb well_formed_context new_entries = true.
Proof. vm_compute. reflexivity. Qed.

Lemma well_formed_has_id (e : Entry) :
  well_formed_context e = true -> has_id e = true.
Proof.
  unfold well_formed_context, has_id, Dict.mem.
  now destruct (Dict.get "id" e).
Qed.

Lemma well_formed_hashable (e : Entry) :
  well_formed_context e = true -> has_hashable_id e = true.
Proof.
  unfold well_formed_context, has_hashable_id.
  now destruct (Dict.get "id" e) as [[ | | | i | | ] | ].
Qed.

(** On a registry of the shape the script expects, the three steps return. *)
Lemma fix_steps_returns (r : Registry) (w : world) :
  well_formed r = true -> exists r' w', fix_steps r w = (inr r', w').
Proof.
  unfold well_formed. intros [Hc Ha]%andb_prop.
  destruct (remove_returns r w
              (forallb_impl _ _ _ well_formed_has_id Hc))
    as (r1 & line & H1 & Hc1 & Ho1 & _).
  assert (Hwf1 : forallb well_formed_context (contexts_of r1) = true)
    by (rewrite Hc1; now apply forallb_filter).
  destruct (add_returns r1 (printed w [line])
              (forallb_impl _ _ _ well_formed_hashable Hwf1))
    as (r2 & H2 & Hc2 & Ho2 & _).
  assert (Hagents : agents_of r2 = agents_of r).
  { unfold agents_of, Dict.get_default.
    now rewrite Ho2, Ho1 by discriminate. }
  assert (Hwf2 : forallb well_formed_context (contexts_of r2) = true).
  { rewrite (contexts_of_get r2 _ Hc2), forallb_app, Hwf1.
    cbn [andb]. unfold added_entries.
    apply forallb_filter, forallb_filter, new_entries_well_formed. }
  set (w2 := printed (printed w [line]) _) in H2.
  destruct (for_each_in_total "agents" update_agent r2) with (w := w2)
    as (r3 & w3 & H3).
  { intros e He w0. apply update_agent_total.
    fold (agents_of r2) in He. rewrite Hagents in He.
    rewrite forallb_forall in Ha. auto. }
  pose proof H3 as H3'. apply for_each_in_inv in H3' as (Ho3 & _).
  destruct (for_each_in_total "contexts" update_context r3) with (w := w3)
    as (r4 & w4 & H4).
  { intros e He w0.
    destruct (update_context_total e w0) as (e' & He'); [|now exists e', w0].
    unfold Dict.get_default in He. rewrite Ho3 in He by discriminate.
    fold (Dict.get_default "contexts" [] (components r2)) in He.
    fold (contexts_of r2) in He.
    rewrite forallb_forall in Hwf2. auto. }
  eexists r4, _. unfold fix_steps.
  rewrite (bind_step _ H1), (bind_step _ H2). unfold update_dependencies.
  rewrite (bind_step _ H3), (bind_step _ H4). mnorm. reflexivity.
Qed.

(** C5, as the code has it.  After a run of the three steps, the agent
    whose [id] is [opencoder] and whose dependencies are
    [["context:workflows-delegation"]] stands at its place with
    dependencies [["context:task-delegation-basics"]] and is otherwise
    unchanged. *)
Theorem fix_rewrites_opencoder
    (r r' : Registry) (w w' : world) (n : nat) (agent : Entry) :
  fix_steps r w = (inr r', w') ->
  nth_error (agents_of r) n = Some agent ->
  Dict.get "id" agent = Some (JStr "opencoder") ->
  Dict.get "dependencies" agent
  = Some (JArr [JStr "context:workflows-delegation"]) ->
  exists agent',
    nth_error (agents_of r') n = Some agent'
    /\ Dict.get "dependencies" agent'
       = Some (JArr [JStr "context:task-delegation-basics"])
    /\ same_but_dependencies agent agent'.
Proof.
  intros Hrun Hn Hid Hdeps.
  apply agents_of_nth in Hn as (es & Hes & Hn).
  pose proof (fix_steps_other_category r r' w w' "agents" Hrun) as H.
  rewrite Hes in H. destruct H as (es' & Hes' & Hall); [discriminate|].
  destruct (Forall2_nth_error _ _ _ n agent Hall Hn) as (agent' & Hn' & Hup).
  exists agent'. split; [|split].
  - unfold agents_of, Dict.get_default. now rewrite Hes'.
  - unfold updated in Hup. cbn [String.eqb Ascii.eqb Bool.eqb] in Hup.
    destruct Hup as (w1 & w2 & Hup).
    rewrite (update_agent_opencoder agent ["context:workflows-delegation"] w1
               Hid Hdeps) in Hup.
    injection Hup as <- _. apply DictFacts.get_set_same.
  - eapply updated_sbd, Hup.
Qed.







(** ** main *)

Lemma prints_remove (r : Registry) :
  prints not_saved_line (remove_dead_references r).
Proof.
  unfold remove_dead_references, not_dead. prints_tac; reflexivity.
Qed.

Lemma prints_add (r : Registry) :
  prints not_saved_line (add_split_file_entries r).
Proof.
  unfold add_split_file_entries, verify_step, hashed_id, append_step.
  prints_tac; reflexivity.
Qed.

Lemma prints_update (r : Registry) :
  prints not_saved_line (update_dependencies r).
Proof.
  unfold update_dependencies, for_each_in, update_agent, update_context,
    rewrite_dependencies.
  prints_tac; reflexivity.
Qed.

Lemma prints_load : prints not_saved_line load_registry.
Proof.
  intros w res w'. unfold load_registry.
  destruct (registry_json w); intros [= <- <-]; exists [];
    now rewrite printed_nil.
Qed.

(** [main], from [load_registry] on. *)
Lemma main_from_load (w : world) :
  main w
  = (registry <- load_registry ;;
     print (loaded_line registry) ;;;
     registry <- fix_steps registry ;;
     save_registry registry ;;;
     print (String "010" ("✓ Registry now has "
                          ++ str_of_nat (List.length (contexts_of registry))
                          ++ " context entries")) ;;;
     print (String "010" "Next: Run validation to check results") ;;;
     print "  bun run scripts/registry/validate-registry.ts")
      (printed w banner).
Proof.
  unfold main. rewrite !bind_print, !printed_printed. reflexivity.
Qed.

Lemma printed_then (P : string -> Prop) (w w1 w2 : world) (l1 : list string) :
  w1 = printed w l1 -> Forall P l1 ->
  (exists l2, w2 = printed w1 l2 /\ Forall P l2) ->
  exists l, w2 = printed w l /\ Forall P l.
Proof.
  intros -> H1 (l2 & -> & H2). exists (l1 ++ l2)%list.
  rewrite printed_printed. split; auto. now apply Forall_app.
Qed.

Lemma banner_not_saved : Forall not_saved_line banner.
Proof. repeat constructor. Qed.

(** C6. All or nothing.  When [load_registry] or one of the three steps
    raises, [main] raises the same exception there: the registry file holds
    what it held, and the confirmation of [save_registry] is not among the
    lines printed. *)
Theorem main_aborts_before_save (w w' : world) (e : exn) :
  aborts_before_save w e w' ->
  main w = (inl e, w')
  /\ registry_json w' = registry_json w
  /\ exists lines,
       w' = printed w lines
       /\ ~ In ("✓ Registry saved to " ++ REGISTRY_FILE w) lines.
Proof.
  intros Habort.
  assert (H : main w = (inl e, w')
              /\ exists lines, w' = printed w lines /\ Forall not_saved_line lines).
  { rewrite main_from_load.
    destruct Habort as [Hl | r w0 Hl Hr | r r1 w0 w1 Hl Hr Ha
                        | r r1 r2 w0 w1 w2 Hl Hr Ha Hu].
    - split; [now rewrite (bind_abort _ Hl)|].
      apply (printed_then not_saved_line w (printed w banner) w' banner eq_refl
                 banner_not_saved).
      eapply prints_load, Hl.
    - split.
      + rewrite (bind_step _ Hl), bind_print. unfold fix_steps. mnorm.
        now rewrite (bind_abort _ Hr).
      + apply (printed_then not_saved_line w (printed w banner) w' banner eq_refl
                 banner_not_saved).
        destruct (prints_load _ _ _ Hl) as (l0 & E0 & H0).
        eapply printed_then; [exact E0 | exact H0|].
        apply (printed_then not_saved_line w0 (printed w0 [loaded_line r]) w'
                 [loaded_line r] eq_refl); [repeat constructor|].
        eapply prints_remove, Hr.
    - split.
      + rewrite (bind_step _ Hl), bind_print. unfold fix_steps. mnorm.
        rewrite (bind_step _ Hr). cbv beta. mnorm.
        now rewrite (bind_abort _ Ha).
      + apply (printed_then not_saved_line w (printed w banner) w' banner eq_refl
                 banner_not_saved).
        destruct (prints_load _ _ _ Hl) as (l0 & E0 & H0).
        eapply printed_then; [exact E0 | exact H0|].
        apply (printed_then not_saved_line w0 (printed w0 [loaded_line r]) w'
                 [loaded_line r] eq_refl); [repeat constructor|].
        destruct (prints_remove _ _ _ _ Hr) as (l1 & E1 & H1).
        eapply printed_then; [exact E1 | exact H1|].
        eapply prints_add, Ha.
    - split.
      + rewrite (bind_step _ Hl), bind_print. unfold fix_steps. mnorm.
        rewrite (bind_step _ Hr). cbv beta. mnorm.
        rewrite (bind_step _ Ha). cbv beta.
        now rewrite (bind_abort _ Hu).
      + apply (printed_then not_saved_line w (printed w banner) w' banner eq_refl
                 banner_not_saved).
        destruct (prints_load _ _ _ Hl) as (l0 & E0 & H0).
        eapply printed_then; [exact E0 | exact H0|].
        apply (printed_then not_saved_line w0 (printed w0 [loaded_line r]) w'
                 [loaded_line r] eq_refl); [repeat constructor|].
        destruct (prints_remove _ _ _ _ Hr) as (l1 & E1 & H1).
        eapply printed_then; [exact E1 | exact H1|].
        destruct (prints_add _ _ _ _ Ha) as (l2 & E2 & H2).
        eapply printed_then; [exact E2 | exact H2|].
        eapply prints_update, Hu. }
  destruct H as (Hmain & lines & -> & Hlines).
  split; [exact Hmain|]. split; [reflexivity|].
  exists lines. split; [reflexivity|].
  intros Hin. rewrite Forall_forall in Hlines. apply Hlines in Hin.
  unfold not_saved_line in Hin. cbn [REGISTRY_FILE printed] in Hin.
  now rewrite prefix_app in Hin.
Qed.

(** Every way [main] raises is one of those: [save_registry] and the lines
    printed after it do not raise. *)
Lemma main_raises_inv (w w' : world) (e : exn) :
  main w = (inl e, w') -> aborts_before_save w e w'.
Proof.
  rewrite main_from_load. intros H.
  apply bind_raises in H as [Hl | (r & w0 & Hl & H)];
    [now apply abort_in_load|].
  rewrite bind_print in H.
  apply bind_raises in H as [Hf | (r3 & w3 & _ & H)]; [|discriminate].
  unfold fix_steps in Hf.
  apply bind_raises in Hf as [Hr | (r1 & w1 & Hr & Hf)];
    [now apply (abort_in_remove w e w' r w0)|].
  apply bind_raises in Hf as [Ha | (r2 & w2 & Ha & Hu)];
    [now apply (abort_in_add w e w' r r1 w0 w1)|].
  now apply (abort_in_update w e w' r r1 r2 w0 w1 w2).
Qed.

(** ** The sample inputs run *)

Lemma sample_fix_returns :
  exists r' w', fix_steps sample_registry sample_world = (inr r', w').
Proof. eexists _, _. vm_compute. reflexivity. Defined.

Lemma sample_update_returns :
  exists r' w', update_dependencies sample_registry sample_world = (inr r', w').
Proof. eexists _, _. vm_compute. reflexivity. Defined.

Lemma guide_not_denylisted :
  ~ denylisted (sample_entry "guide" ["context:adding-agent"]).
Proof.
  intros (i & Hi & Hin). injection Hi as <-. simpl in Hin.
  repeat (destruct Hin as [Hin | Hin]; [discriminate|]). exact Hin.
Qed.

(** ** The claims the code departs from *)

(** C1. Running the script twice.  On a registry whose one context depends
    on [context:adding-agent], with none of the candidates' files on disk,
    both runs of [main] succeed; the first saves the dependency as
    [context:adding-agent-basics], the second, reading what the first
    saved, saves it as [context:adding-agent-basics-basics]: the second
    output is not the first. *)
Theorem main_twice_differs :
  let w1 := snd (main guide_world) in
  let w2 := snd (main w1) in
  fst (main guide_world) = inr tt
  /\ fst (main w1) = inr tt
  /\ registry_json w1
     = Document (mkRegistry
                   [("contexts",
                     [sample_entry "guide" ["context:adding-agent-basics"]])] [])
  /\ registry_json w2
     = Document (mkRegistry
                   [("contexts",
                     [sample_entry "guide" ["context:adding-agent-basics-basics"]])]
                   [])
  /\ registry_json w2 <> registry_json w1.
Proof.
  vm_compute. repeat split. discriminate.
Qed.

(** C5, as stated, fails: an agent that is not [opencoder] keeps the
    dependency [context:workflows-delegation] through the run. *)
Lemma fix_leaves_other_agents :
  exists r' w' agent,
    fix_steps sample_registry sample_world = (inr r', w')
    /\ nth_error (agents_of sample_registry) 1 = Some agent
    /\ Dict.get "dependencies" agent
       = Some (JArr [JStr "context:workflows-delegation"])
    /\ nth_error (agents_of r') 1 = Some agent
    /\ Dict.get "dependencies" agent
       <> Some (JArr [JStr "context:task-delegation-basics"]).
Proof.
  eexists _, _, _. split; [vm_compute; reflexivity|].
  vm_compute. repeat split. discriminate.
Qed.


(** ** The theorems at the sample inputs *)

Lemma remove_dead_references_denylist_witness :
  forallb has_id (contexts_of sample_registry) = true
  /\ exists r' w',
       remove_dead_references sample_registry sample_world = (inr r', w')
       /\ (forall e, In e (contexts_of sample_registry) -> denylisted e ->
                     ~ In e (contexts_of r'))
       /\ (forall e, In e (contexts_of r') -> ~ denylisted e)
       /\ (forall category, category <> "contexts" ->
             Dict.get category (components r')
             = Dict.get category (components sample_registry)).
Proof.
  split; [reflexivity|].
  apply (remove_dead_references_denylist sample_registry sample_world).
  reflexivity.
Defined.

Lemma remove_dead_references_order_witness :
  forallb has_id (contexts_of sample_registry) = true
  /\ exists r' w',
       remove_dead_references sample_registry sample_world = (inr r', w')
       /\ contexts_of r' = filter keep (contexts_of sample_registry)
       /\ (forall a b, ~ denylisted a -> ~ denylisted b ->
             (before a b (contexts_of r')
              <-> before a b (contexts_of sample_registry))).
Proof.
  split; [reflexivity|].
  apply (remove_dead_references_order sample_registry sample_world).
  reflexivity.
Defined.

Lemma add_split_file_entries_creates_contexts_witness :
  Dict.mem "contexts" (components agents_only_registry) = false
  /\ exists r' w',
       add_split_file_entries agents_only_registry sample_world = (inr r', w')
       /\ Dict.get "contexts" (components r')
          = Some (filter (on_disk sample_world) new_entries).
Proof.
  split; [reflexivity|].
  apply (proj1 (add_split_file_entries_creates_contexts
                  agents_only_registry sample_world)).
  reflexivity.
Defined.

Lemma add_split_file_entries_appends_witness :
  forallb has_hashable_id (contexts_of sample_registry) = true
  /\ exists r' w' (chosen : Entry -> bool),
       add_split_file_entries sample_registry sample_world = (inr r', w')
       /\ contexts_of r'
          = (contexts_of sample_registry ++ filter chosen new_entries)%list
       /\ (forall category, category <> "contexts" ->
             Dict.get category (components r')
             = Dict.get category (components sample_registry))
       /\ (forall category,
             Dict.mem category (components sample_registry) = true ->
             Dict.mem category (components r') = true)
       /\ Dict.keys (components r')
          = (if Dict.mem "contexts" (components sample_registry)
             then Dict.keys (components sample_registry)
             else Dict.keys (components sample_registry) ++ ["contexts"])%list
       /\ members r' = members sample_registry.
Proof.
  split; [reflexivity|].
  apply (add_split_file_entries_appends sample_registry sample_world).
  reflexivity.
Defined.

Lemma add_split_file_entries_existence_gate_witness :
  (In specialists new_entries
   /\ path_exists sample_world (candidate_path specialists) = false
   /\ forallb has_hashable_id (contexts_of sample_registry) = true)
  /\ exists r' lines appended,
       add_split_file_entries sample_registry sample_world
       = (inr r', printed sample_world lines)
       /\ contexts_of r' = (contexts_of sample_registry ++ appended)%list
       /\ (forall e, In e appended -> entry_id e <> entry_id specialists)
       /\ In ("⚠ File doesn't exist: " ++ candidate_path specialists) lines.
Proof.
  assert (H1 : In specialists new_entries) by (right; left; reflexivity).
  assert (H2 : path_exists sample_world (candidate_path specialists) = false)
    by reflexivity.
  assert (H3 : forallb has_hashable_id (contexts_of sample_registry) = true)
    by reflexivity.
  split; [auto|].
  exact (add_split_file_entries_existence_gate
           sample_registry sample_world specialists H1 H2 H3).
Defined.

Lemma update_dependencies_substring_witness :
  exists r' w',
    update_dependencies sample_registry sample_world = (inr r', w')
    /\ forall n ctx deps,
         nth_error (contexts_of sample_registry) n = Some ctx ->
         Dict.get "dependencies" ctx = Some (JArr (map JStr deps)) ->
         nth_error (contexts_of r') n
         = Some (Dict.set "dependencies"
                   (JArr (map JStr (map rewrite_context_dep deps))) ctx).
Proof.
  destruct sample_update_returns as (r' & w' & Hrun).
  exists r', w'. split; [exact Hrun|].
  exact (proj1 (update_dependencies_substring
                  sample_registry r' sample_world w' Hrun)).
Defined.

Lemma fix_rewrites_opencoder_witness :
  exists r' w',
    fix_steps sample_registry sample_world = (inr r', w')
    /\ exists agent',
         nth_error (agents_of r') 0 = Some agent'
         /\ Dict.get "dependencies" agent'
            = Some (JArr [JStr "context:task-delegation-basics"])
         /\ same_but_dependencies
              (sample_entry "opencoder" ["context:workflows-delegation"]) agent'.
Proof.
  destruct sample_fix_returns as (r' & w' & Hrun).
  exists r', w'. split; [exact Hrun|].
  apply (fix_rewrites_opencoder sample_registry r' sample_world w' 0
           (sample_entry "opencoder" ["context:workflows-delegation"]) Hrun);
    reflexivity.
Defined.


Lemma main_aborts_before_save_witness :
  exists w',
    aborts_before_save broken_world (KeyError "dependencies") w'
    /\ main broken_world = (inl (KeyError "dependencies"), w')
    /\ registry_json w' = registry_json broken_world
    /\ exists lines,
         w' = printed broken_world lines
         /\ ~ In ("✓ Registry saved to " ++ REGISTRY_FILE broken_world) lines.
Proof.
  assert (H : exists w',
             aborts_before_save broken_world (KeyError "dependencies") w').
  { eexists. eapply abort_in_update; vm_compute; reflexivity. }
  destruct H as (w' & H). exists w'. split; [exact H|].
  exact (main_aborts_before_save broken_world w' (KeyError "dependencies") H).
Defined.

(** * Further properties of the script *)

(** ** remove_dead_references *)

Lemma filter_idem {A} (p : A -> bool) (l : list A) :
  filter p (filter p l) = filter p l.
Proof.
  induction l as [ | x l IH]; simpl; auto.
  destruct (p x) eqn:E; simpl; [rewrite E|]; now rewrite ?IH.
Qed.

Lemma filter_none_out {A} (p : A -> bool) (l : list A) :
  (forall x, In x l -> p x = true) -> filter p l = l.
Proof.
  induction l as [ | x l IH]; simpl; auto. intros H.
  rewrite (H x (or_introl eq_refl)). f_equal. apply IH.
  intros y Hy. apply H. now right.
Qed.

(** A run that finds nothing to remove returns the registry it was given. *)
Lemma remove_nothing (r : Registry) (w : world) :
  forallb has_id (contexts_of r) = true ->
  filter keep (contexts_of r) = contexts_of r ->
  remove_dead_references r w
  = (inr r, printed w ["✓ Removed dead references: None"]).
Proof.
  unfold contexts_of, Dict.get_default.
  destruct (Dict.get "contexts" (components r)) as [cs|] eqn:Hcs;
    intros Hid Hkeep; [|apply (remove_absent r w Hcs)].
  rewrite (remove_ok r cs w Hcs Hid). unfold removed_line.
  rewrite Hkeep, Nat.sub_diag, (DictFacts.set_get _ _ _ Hcs).
  now rewrite with_components_same.
Qed.

(** [remove_dead_references] is idempotent: run on the registry it
    returned, it returns that registry again and reports [None]. *)
Theorem remove_dead_references_idempotent (r : Registry) (w : world) :
  forallb has_id (contexts_of r) = true ->
  exists r1 w1,
    remove_dead_references r w = (inr r1, w1)
    /\ forall w2,
         remove_dead_references r1 w2
         = (inr r1, printed w2 ["✓ Removed dead references: None"]).
Proof.
  intros Hid.
  destruct (remove_returns r w Hid) as (r1 & line & Hrun & Hctx & _).
  exists r1, (printed w [line]). split; [exact Hrun|].
  intros w2. apply remove_nothing; rewrite Hctx.
  - now apply forallb_filter.
  - apply filter_idem.
Qed.

Lemma forallb_false_exists {A} (p : A -> bool) (l : list A) :
  forallb p l = false <-> exists x, In x l /\ p x = false.
Proof.
  induction l as [ | x l IH]; simpl.
  - split; [discriminate | intros (x & [] & _)].
  - destruct (p x) eqn:E; simpl.
    + rewrite IH. split.
      * intros (y & Hy & Hp). eauto.
      * intros (y & [-> | Hy] & Hp); [congruence | eauto].
    + split; auto. intros _. exists x. auto.
Qed.

(** On a registry document of the shape of [Registry] (an object whose
    [components] is an object of lists of objects), the one way
    [remove_dead_references] raises: a [contexts] entry without an [id]
    makes it raise [KeyError] on [id], before anything is printed; on such
    a document it raises nothing else and in no other case. *)
Theorem remove_dead_references_raises (r : Registry) (w w' : world) (e : exn) :
  remove_dead_references r w = (inl e, w')
  <-> (exists c, In c (contexts_of r) /\ Dict.get "id" c = None)
      /\ e = KeyError "id" /\ w' = w.
Proof.
  assert (Hno : forallb has_id (contexts_of r) = false
                <-> exists c, In c (contexts_of r) /\ Dict.get "id" c = None).
  { rewrite forallb_false_exists. unfold has_id, Dict.mem.
    split; intros (c & Hc & H); exists c; split; auto;
      destruct (Dict.get "id" c); congruence. }
  destruct (forallb has_id (contexts_of r)) eqn:Hid.
  - destruct (remove_returns r w Hid) as (r1 & line & -> & _).
    split; [discriminate|]. intros (Hc & _). apply Hno in Hc. discriminate.
  - assert (Hr : remove_dead_references r w = (inl (KeyError "id"), w)).
    { revert Hid. unfold contexts_of, Dict.get_default.
      destruct (Dict.get "contexts" (components r)) as [cs|] eqn:Hcs;
        [apply (remove_raises r cs w Hcs) | discriminate]. }
    rewrite Hr. split.
    + intros [= <- <-]. split; [now apply Hno | auto].
    + now intros (_ & -> & ->).
Qed.

(** When no [contexts] entry is in the denylist, [remove_dead_references]
    gives the registry back as it was and reports [None]. *)
Theorem remove_dead_references_nothing_dead (r : Registry) (w : world) :
  forallb has_id (contexts_of r) = true ->
  (forall c, In c (contexts_of r) -> ~ denylisted c) ->
  remove_dead_references r w
  = (inr r, printed w ["✓ Removed dead references: None"]).
Proof.
  intros Hid Hnone. apply remove_nothing; auto.
  apply filter_none_out. intros c Hc.
  now apply not_denylisted_keep, Hnone.
Qed.

(** ** add_split_file_entries *)

Lemma filter_all_out {A} (p : A -> bool) (l : list A) :
  (forall x, In x l -> p x = false) -> filter p l = [].
Proof.
  induction l as [ | x l IH]; simpl; auto. intros H.
  rewrite (H x (or_introl eq_refl)). apply IH.
  intros y Hy. apply H. now right.
Qed.

Lemma py_eq_str (i : string) (x : json) :
  py_eq (JStr i) x = true <-> x = JStr i.
Proof.
  destruct x; simpl; split; try discriminate.
  - intros H. apply String.eqb_eq in H. now subst.
  - intros [= ->]. apply String.eqb_refl.
Qed.

Lemma new_entry_is_candidate (c : Entry) :
  In c new_entries -> is_candidate c = true.
Proof.
  pose proof new_entries_are_candidates as H.
  rewrite forallb_forall in H. apply H.
Qed.

Lemma candidate_entry_id (c : Entry) :
  is_candidate c = true -> exists i, entry_id c = JStr i.
Proof.
  intros (p & i & _ & Hi)%candidate_fields. exists i.
  unfold entry_id, Dict.get_default. now rewrite Hi.
Qed.

Lemma candidate_hashable (c : Entry) :
  is_candidate c = true -> has_hashable_id c = true.
Proof.
  intros (p & i & _ & Hi)%candidate_fields.
  unfold has_hashable_id. now rewrite Hi.
Qed.

(** For a candidate, the test [entry['id'] not in existing_ids] fails
    exactly when its id is one of the ids collected. *)
Lemma fresh_candidate (ids : list json) (c : Entry) :
  is_candidate c = true ->
  (fresh ids c = true <-> ~ In (entry_id c) ids).
Proof.
  intros (i & Hi)%candidate_entry_id. unfold fresh. rewrite Hi.
  rewrite negb_true_iff. split.
  - intros H Hin. assert (existsb (py_eq (JStr i)) ids = true); [|congruence].
    apply existsb_exists. exists (JStr i). split; auto. now apply py_eq_str.
  - intros H. destruct (existsb (py_eq (JStr i)) ids) eqn:E; auto.
    apply existsb_exists in E as (x & Hx & ->%py_eq_str). contradiction.
Qed.

Lemma added_entries_In_iff (w : world) (cs : list Entry) (e : Entry) :
  In e (added_entries w cs)
  <-> In e new_entries /\ on_disk w e = true /\ fresh (ids_of cs) e = true.
Proof. unfold added_entries. rewrite !filter_In. tauto. Qed.

Lemma added_are_candidates (w : world) (cs : list Entry) :
  forallb is_candidate (added_entries w cs) = true.
Proof.
  apply forallb_forall. intros e (He & _)%added_entries_In_iff.
  now apply new_entry_is_candidate.
Qed.

Lemma ids_of_app (l1 l2 : list Entry) :
  ids_of (l1 ++ l2) = (ids_of l1 ++ ids_of l2)%list.
Proof. apply map_app. Qed.

(** Once the entries of a run are in [contexts], a run on the same files
    finds nothing to add. *)
Lemma added_again (w w2 : world) (cs : list Entry) :
  (forall p, path_exists w2 p = path_exists w p) ->
  added_entries w2 (cs ++ added_entries w cs) = [].
Proof.
  intros Hdisk.
  assert (H : forall e, In e new_entries -> on_disk w2 e = true ->
                        fresh (ids_of (cs ++ added_entries w cs)) e = false).
  { intros e He Hon. apply not_true_is_false. intros Hfresh.
    apply (fresh_candidate _ e (new_entry_is_candidate e He)) in Hfresh.
    apply Hfresh. rewrite ids_of_app. apply in_or_app.
    destruct (fresh (ids_of cs) e) eqn:Hf.
    - right. apply in_map, added_entries_In_iff. repeat split; auto.
      unfold on_disk in *. now rewrite <- Hdisk.
    - left. unfold fresh in Hf. apply negb_false_iff in Hf.
      destruct (candidate_entry_id e (new_entry_is_candidate e He)) as (i & Hi).
      rewrite Hi in *.
      now apply existsb_exists in Hf as (x & Hx & ->%py_eq_str). }
  unfold added_entries at 1. apply filter_all_out.
  intros e (He & Hon)%filter_In. now apply H.
Qed.

Lemma contexts_hashable_after_add (w : world) (cs : list Entry) :
  forallb has_hashable_id cs = true ->
  forallb has_hashable_id (cs ++ added_entries w cs) = true.
Proof.
  intros Hcs. rewrite forallb_app, Hcs. cbn [andb].
  apply (forallb_impl _ _ _ candidate_hashable), added_are_candidates.
Qed.

(** [add_split_file_entries] is idempotent: run again on the registry it
    returned, with the same files on disk, it returns that registry as it is
    and reports that it added 0 entries. *)
Theorem add_split_file_entries_idempotent (r : Registry) (w : world) :
  forallb has_hashable_id (contexts_of r) = true ->
  exists r1 w1,
    add_split_file_entries r w = (inr r1, w1)
    /\ forall w2,
         (forall p, path_exists w2 p = path_exists w p) ->
         add_split_file_entries r1 w2
         = (inr r1,
            printed w2 (warnings w2 ++ ["✓ Added 0 new split-file entries"])).
Proof.
  intros Hids.
  destruct (add_returns r w Hids) as (r1 & Hrun & Hctx & _).
  eexists r1, _. split; [exact Hrun|]. intros w2 Hdisk.
  pose proof (contexts_of_get r1 _ Hctx) as Hcs1.
  assert (Hids1 : forallb has_hashable_id (contexts_of r1) = true)
    by (rewrite Hcs1; now apply contexts_hashable_after_add).
  rewrite (add_ok r1 w2 Hids1). unfold with_added.
  rewrite Hcs1, (added_again w w2 (contexts_of r) Hdisk), app_nil_r.
  rewrite (DictFacts.set_get _ _ _ Hctx), with_components_same.
  reflexivity.
Qed.

Lemma NoDup_map_filter {A B} (p : A -> bool) (f : A -> B) (l : list A)
    (Hnd : NoDup (map f l)) :
  NoDup (map f (filter p l)).
Proof.
  revert Hnd. induction l as [ | x l IH]; simpl; auto.
  intros H. inversion_clear H as [ | ? ? Hx Hl].
  destruct (p x); simpl; auto. constructor; auto.
  intros Hin. apply Hx. apply in_map_iff in Hin as (y & <- & Hy).
  apply filter_In in Hy as [Hy _]. now apply in_map.
Qed.

Lemma new_entries_ids_NoDup : NoDup (ids_of new_entries).
Proof.
  apply (NoDup_map_inv format). unfold ids_of. rewrite map_map.
  apply new_entries_ids_distinct.
Qed.

Lemma ids_of_eq (l : list Entry) : ids_of l = map entry_id l.
Proof. reflexivity. Qed.

Lemma added_entries_eq (w : world) (cs : list Entry) :
  added_entries w cs = filter (fresh (ids_of cs)) (filter (on_disk w) new_entries).
Proof. unfold added_entries. reflexivity. Qed.

Lemma added_ids_NoDup (w : world) (cs : list Entry) :
  NoDup (ids_of cs) -> NoDup (ids_of (cs ++ added_entries w cs)).
Proof.
  intros Hcs. rewrite ids_of_app. apply NoDup_app; [exact Hcs| |].
  - rewrite added_entries_eq, ids_of_eq.
    apply NoDup_map_filter, NoDup_map_filter.
    rewrite <- ids_of_eq. apply new_entries_ids_NoDup.
  - intros x Hx Hadded. rewrite ids_of_eq in Hadded.
    apply in_map_iff in Hadded as (e & <- & He).
    apply added_entries_In_iff in He as (He & _ & Hfresh).
    now apply (fresh_candidate _ e (new_entry_is_candidate e He)) in Hfresh.
Qed.

(** [add_split_file_entries] keeps the ids of [contexts] unique: if no two
    entries of [contexts] share an id before it runs, none do after. *)
Theorem add_split_file_entries_unique_ids (r : Registry) (w : world) :
  forallb has_hashable_id (contexts_of r) = true ->
  NoDup (ids_of (contexts_of r)) ->
  exists r' w',
    add_split_file_entries r w = (inr r', w')
    /\ NoDup (ids_of (contexts_of r')).
Proof.
  intros Hids Hnd.
  destruct (add_returns r w Hids) as (r' & Hrun & Hctx & _).
  eexists r', _. split; [exact Hrun|].
  rewrite (contexts_of_get r' _ Hctx). now apply added_ids_NoDup.
Qed.

(** Which candidates [add_split_file_entries] appends: exactly those whose
    file exists and whose id no entry of [contexts] had. *)
Theorem add_split_file_entries_appended (r : Registry) (w : world) :
  forallb has_hashable_id (contexts_of r) = true ->
  exists r' w' appended,
    add_split_file_entries r w = (inr r', w')
    /\ contexts_of r' = (contexts_of r ++ appended)%list
    /\ forall c,
         In c appended
         <-> In c new_entries
             /\ path_exists w (candidate_path c) = true
             /\ ~ exists e, In e (contexts_of r) /\ entry_id e = entry_id c.
Proof.
  intros Hids.
  destruct (add_returns r w Hids) as (r' & Hrun & Hctx & _).
  eexists r', _, (added_entries w (contexts_of r)).
  split; [exact Hrun|]. split; [now apply contexts_of_get|].
  intros c. rewrite added_entries_In_iff. unfold on_disk.
  split; intros (Hc & Hdisk & H); repeat split; auto.
  - apply (fresh_candidate _ c (new_entry_is_candidate c Hc)) in H.
    intros (e & He & Hid). apply H. rewrite <- Hid. now apply in_map.
  - apply (fresh_candidate _ c (new_entry_is_candidate c Hc)).
    intros Hin. apply in_map_iff in Hin as (e & Hid & He). eauto.
Qed.

Lemma existing_ids_raises_which (cs : list Entry) (w : world) :
  forallb has_hashable_id cs = false ->
  exists e, (e = KeyError "id" \/ e = TypeError)
            /\ mapM hashed_id cs w = (inl e, w).
Proof.
  induction cs as [ | c cs IH]; simpl; [discriminate|].
  unfold hashed_id at 1, getitem. unfold has_hashable_id at 1.
  destruct (Dict.get "id" c) as [v|]; simpl.
  - destruct v; simpl; intros Hcs; unfold hashed; mnorm;
      try (destruct (IH Hcs) as (e & He & Hrun); exists e; split; auto;
           now rewrite (bind_abort _ Hrun));
      eauto.
  - intros _. mnorm. eauto.
Qed.

(** How [add_split_file_entries] raises: when an entry already in
    [contexts] has no [id] ([KeyError]) or has a list or an object for id
    ([TypeError]); the warnings for the missing files are printed by then,
    and nothing else is. *)
Theorem add_split_file_entries_raises (r : Registry) (w : world) :
  (exists c, In c (contexts_of r) /\ has_hashable_id c = false) ->
  exists e,
    (e = KeyError "id" \/ e = TypeError)
    /\ add_split_file_entries r w = (inl e, printed w (warnings w)).
Proof.
  intros Hbad. apply forallb_false_exists in Hbad.
  destruct (existing_ids_raises_which (contexts_of r) (printed w (warnings w)) Hbad)
    as (e & He & Hrun).
  exists e. split; [exact He|].
  unfold add_split_file_entries.
  rewrite (bind_step _ (verify_new_entries w)).
  revert Hbad Hrun. unfold contexts_of, Dict.get_default, Dict.mem.
  destruct (Dict.get "contexts" (components r)) as [cs|] eqn:Hcs;
    [|discriminate].
  intros _ Hrun. cbn [negb]. unfold getitem at 1. rewrite Hcs. mnorm.
  now rewrite (bind_abort _ Hrun).
Qed.

(** ** update_dependencies *)

(** An agent that is not [opencoder] goes through [update_dependencies]
    unchanged, whatever its dependencies are. *)
Theorem update_dependencies_other_agents
    (r r' : Registry) (w w' : world) (n : nat) (agent : Entry) (id : json) :
  update_dependencies r w = (inr r', w') ->
  nth_error (agents_of r) n = Some agent ->
  Dict.get "id" agent = Some id ->
  py_eq id (JStr "opencoder") = false ->
  nth_error (agents_of r') n = Some agent.
Proof.
  intros Hrun Hn Hid Hne.
  apply update_dependencies_inv in Hrun as (Hcat & _).
  apply agents_of_nth in Hn as (es & Hes & Hn).
  specialize (Hcat "agents"). rewrite Hes in Hcat.
  destruct Hcat as (es' & Hes' & Hall).
  destruct (Forall2_nth_error _ _ _ n agent Hall Hn) as (agent' & Hn' & Hup).
  unfold agents_of, Dict.get_default. rewrite Hes', Hn'. f_equal.
  unfold updated in Hup. cbn [String.eqb Ascii.eqb Bool.eqb] in Hup.
  destruct Hup as (w1 & w2 & Hup).
  rewrite (update_agent_other agent id w1 Hid Hne) in Hup.
  now injection Hup as <- _.
Qed.

Lemma rewrite_context_dep_absent (dep : string) :
  mentions_old dep = false -> rewrite_context_dep dep = dep.
Proof.
  unfold mentions_old. intros [[H1 H2]%orb_false_elim H3]%orb_false_elim.
  unfold rewrite_context_dep. rewrite !replace_nonempty by (simpl; lia).
  now rewrite (replace_from_absent _ _ dep H1),
    (replace_from_absent _ _ dep H2), (replace_from_absent _ _ dep H3).
Qed.

Lemma map_id_on {A} (f : A -> A) (l : list A) :
  (forall x, In x l -> f x = x) -> map f l = l.
Proof.
  induction l as [ | x l IH]; simpl; auto. intros H.
  rewrite (H x (or_introl eq_refl)). f_equal. apply IH.
  intros y Hy. apply H. now right.
Qed.

(** A [contexts] entry comes out of [update_dependencies] as it went in
    when it has no [dependencies], or when its dependencies are strings none
    of which contains an old substring of the three rules. *)
Theorem update_dependencies_untouched_context
    (r r' : Registry) (w w' : world) (n : nat) (ctx : Entry) :
  update_dependencies r w = (inr r', w') ->
  nth_error (contexts_of r) n = Some ctx ->
  (Dict.get "dependencies" ctx = None
   \/ exists deps,
        Dict.get "dependencies" ctx = Some (JArr (map JStr deps))
        /\ forall dep, In dep deps -> mentions_old dep = false) ->
  nth_error (contexts_of r') n = Some ctx.
Proof.
  intros Hrun Hn Hdeps.
  apply update_dependencies_inv in Hrun as (Hcat & _).
  apply contexts_of_nth in Hn as (cs & Hcs & Hn).
  specialize (Hcat "contexts"). rewrite Hcs in Hcat.
  destruct Hcat as (cs' & Hcs' & Hall).
  destruct (Forall2_nth_error _ _ _ n ctx Hall Hn) as (ctx' & Hn' & Hup).
  rewrite (contexts_of_get r' _ Hcs'), Hn'. f_equal.
  unfold updated in Hup. cbn [String.eqb Ascii.eqb Bool.eqb] in Hup.
  destruct Hup as (w1 & w2 & Hup).
  destruct Hdeps as [Hnone | (deps & Hsome & Hclean)].
  - unfold update_context, Dict.mem in Hup. rewrite Hnone in Hup.
    now injection Hup as <- _.
  - rewrite (update_context_strings ctx deps w1 Hsome) in Hup.
    injection Hup as <- _.
    rewrite (map_id_on rewrite_context_dep deps)
      by (intros d Hd; now apply rewrite_context_dep_absent, Hclean).
    now apply DictFacts.set_get.
Qed.

Lemma Forall2_length_eq {A B} (R : A -> B -> Prop) (l : list A) (l' : list B) :
  Forall2 R l l' -> List.length l' = List.length l.
Proof. intros H. induction H; simpl; auto. Qed.

(** [update_dependencies] neither adds, removes nor reorders: every
    category keeps its number of entries, each entry stays at its place with
    everything but its [dependencies] as it was, and the categories, their
    order and the other members of the document are unchanged. *)
Theorem update_dependencies_frame (r r' : Registry) (w w' : world) :
  update_dependencies r w = (inr r', w') ->
  (forall category,
     match Dict.get category (components r) with
     | Some es =>
         exists es', Dict.get category (components r') = Some es'
           /\ List.length es' = List.length es
           /\ Forall2 same_but_dependencies es es'
     | None => Dict.get category (components r') = None
     end)
  /\ Dict.keys (components r') = Dict.keys (components r)
  /\ members r' = members r.
Proof.
  intros Hrun. apply update_dependencies_inv in Hrun as (Hcat & Hkeys & Hmem).
  repeat split; auto. intros category. specialize (Hcat category).
  destruct (Dict.get category (components r)) as [es|]; auto.
  destruct Hcat as (es' & Hes' & Hall). exists es'.
  assert (Hsbd : Forall2 same_but_dependencies es es')
    by (eapply Forall2_impl; [apply updated_sbd | exact Hall]).
  repeat split; auto. now apply (Forall2_length_eq _ _ _ Hsbd).
Qed.

(** *** The rule for the agent, applied twice *)







(** *** The rules for the contexts, applied twice *)

Lemma string_app_assoc (a b c : string) : (a ++ b) ++ c = a ++ b ++ c.
Proof. induction a as [ | x a IH]; simpl; [reflexivity | now rewrite IH]. Qed.

Lemma occurs_head (old s : string) :
  String.prefix old s = true -> occurs old s = true.
Proof. destruct s as [ | c s]; simpl; [auto | now intros ->]. Qed.

(** A rule whose new substring begins with the old one leaves the old one
    in every string it rewrites. *)
Lemma replace_from_keeps (old suffix s : string) :
  occurs old s = true ->
  occurs old (replace_from old (old ++ suffix) 0 s) = true.
Proof.
  induction s as [ | c s IH]; [auto|].
  cbn [occurs]. destruct (String.prefix old (String c s)) eqn:Hp.
  - intros _. rewrite (replace_from_match _ _ c s Hp), string_app_assoc.
    apply occurs_head, prefix_app.
  - cbn [orb]. intros Hs. rewrite (replace_from_no_match _ _ c s Hp).
    cbn [occurs]. rewrite (IH Hs). apply orb_true_r.
Qed.

Lemma rewrite_context_dep_still_mentions (dep : string) :
  mentions_old dep = true -> mentions_old (rewrite_context_dep dep) = true.
Proof.
  unfold mentions_old, rewrite_context_dep.
  rewrite !replace_nonempty by (simpl; lia).
  change "context:external-libraries-workflow"
    with ("context:external-libraries" ++ "-workflow").
  change "context:adding-agent-basics" with ("context:adding-agent" ++ "-basics").
  change "context:adding-skill-basics" with ("context:adding-skill" ++ "-basics").
  set (o1 := "context:external-libraries").
  set (o2 := "context:adding-agent").
  set (o3 := "context:adding-skill").
  set (a := replace_from o1 (o1 ++ "-workflow") 0 dep).
  set (b := replace_from o2 (o2 ++ "-basics") 0 a).
  intros Hdep.
  destruct (occurs o3 b) eqn:H3.
  { rewrite (replace_from_keeps o3 "-basics" b H3). apply orb_true_r. }
  rewrite (replace_from_absent o3 _ b H3).
  destruct (occurs o2 a) eqn:H2.
  { unfold b at 2. rewrite (replace_from_keeps o2 "-basics" a H2).
    now rewrite orb_true_r. }
  assert (Hb : b = a) by apply (replace_from_absent o2 _ a H2).
  rewrite Hb in *. rewrite H2, H3.
  destruct (occurs o1 dep) eqn:H1.
  { unfold a. now rewrite (replace_from_keeps o1 "-workflow" dep H1). }
  assert (Ha : a = dep) by apply (replace_from_absent o1 _ dep H1).
  rewrite Ha in *. rewrite ?H1, ?H2, ?H3 in Hdep. discriminate.
Qed.

(** The rewriting of [contexts] dependencies never settles: a dependency
    that the three rules change still contains an old substring afterwards,
    so applying the rules to the result changes it again, making it longer
    each time. *)
Theorem rewrite_context_dep_grows_again (dep : string) :
  mentions_old dep = true ->
  mentions_old (rewrite_context_dep dep) = true
  /\ String.length dep < String.length (rewrite_context_dep dep)
  /\ String.length (rewrite_context_dep dep)
     < String.length (rewrite_context_dep (rewrite_context_dep dep)).
Proof.
  intros Hdep.
  pose proof (rewrite_context_dep_still_mentions dep Hdep) as Hagain.
  split; [exact Hagain|]. split; apply rewrite_context_dep_longer; assumption.
Qed.

(** *** When update_dependencies returns *)

Lemma mapM_str_replace_inv (old new : string) (items l' : list json) (w w' : world) :
  mapM (str_replace old new) items w = (inr l', w') ->
  forallb is_str items = true.
Proof.
  revert l' w w'. induction items as [ | x items IH]; intros l' w w';
    [reflexivity|].
  cbn [mapM forallb]. intros H.
  apply bind_ok in H as (y & w1 & Hy & H).
  apply bind_ok in H as (ys & w2 & Hys & _).
  destruct x; try discriminate. simpl. apply (IH ys w1 w2 Hys).
Qed.

Lemma rewrite_dependencies_returned
    (old new : string) (e e' : Entry) (w w' : world) :
  rewrite_dependencies old new e w = (inr e', w') ->
  exists v, Dict.get "dependencies" e = Some v /\ iterable_of_strings v = true.
Proof.
  unfold rewrite_dependencies, getitem. intros H.
  destruct (Dict.get "dependencies" e) as [v|]; [|discriminate].
  exists v. split; auto.
  apply bind_ok in H as (v' & w1 & [= <- <-] & H).
  apply bind_ok in H as (items & w2 & Hit & H).
  apply bind_ok in H as (deps' & w3 & Hmap & _).
  destruct v; try discriminate; try reflexivity.
  injection Hit as <- _. apply (mapM_str_replace_inv _ _ _ _ _ _ Hmap).
Qed.

(** [update_dependencies] returns only on entries it can rewrite: every
    agent has an [id], the agent [opencoder] has dependencies, and wherever
    [opencoder] or a [contexts] entry has dependencies, they are a list of
    strings (or a string, or an object).  On [null], a number, or a list
    with an item that is not a string, it raises. *)
Theorem update_dependencies_returned (r r' : Registry) (w w' : world) :
  update_dependencies r w = (inr r', w') ->
  (forall agent, In agent (agents_of r) ->
     has_id agent = true
     /\ (Dict.get "id" agent = Some (JStr "opencoder") ->
         exists v, Dict.get "dependencies" agent = Some v
                   /\ iterable_of_strings v = true))
  /\ (forall ctx v, In ctx (contexts_of r) ->
        Dict.get "dependencies" ctx = Some v ->
        iterable_of_strings v = true).
Proof.
  intros Hrun. apply update_dependencies_inv in Hrun as (Hcat & _). split.
  - intros agent Hin. unfold agents_of, Dict.get_default in Hin.
    specialize (Hcat "agents").
    destruct (Dict.get "agents" (components r)) as [es|]; [|contradiction].
    destruct Hcat as (es' & _ & Hall).
    apply In_nth_error in Hin as (n & Hn).
    destruct (Forall2_nth_error _ _ _ n agent Hall Hn) as (agent' & _ & Hup).
    unfold updated in Hup. cbn [String.eqb Ascii.eqb Bool.eqb] in Hup.
    destruct Hup as (w1 & w2 & Hup). unfold update_agent in Hup.
    apply bind_ok in Hup as (id & w3 & Hid & Hup).
    unfold getitem, has_id, Dict.mem in *.
    destruct (Dict.get "id" agent) as [v|]; [|discriminate].
    injection Hid as <- <-. split; [reflexivity|].
    intros [= ->]. cbn [py_eq] in Hup. rewrite String.eqb_refl in Hup.
    apply bind_ok in Hup as (a1 & w4 & Hrw & _).
    apply (rewrite_dependencies_returned _ _ _ _ _ _ Hrw).
  - intros ctx v Hin Hdeps. unfold contexts_of, Dict.get_default in Hin.
    specialize (Hcat "contexts").
    destruct (Dict.get "contexts" (components r)) as [cs|]; [|contradiction].
    destruct Hcat as (cs' & _ & Hall).
    apply In_nth_error in Hin as (n & Hn).
    destruct (Forall2_nth_error _ _ _ n ctx Hall Hn) as (ctx' & _ & Hup).
    unfold updated in Hup. cbn [String.eqb Ascii.eqb Bool.eqb] in Hup.
    destruct Hup as (w1 & w2 & Hup). unfold update_context, Dict.mem in Hup.
    rewrite Hdeps in Hup.
    apply bind_ok in Hup as (c1 & w3 & Hrw & _).
    apply rewrite_dependencies_returned in Hrw as (v' & Hv' & Hit).
    congruence.
Qed.

(** ** The three steps together *)

Lemma Forall2_In_r {A B} (R : A -> B -> Prop) (l : list A) (l' : list B) (y : B) :
  Forall2 R l l' -> In y l' -> exists x, In x l /\ R x y.
Proof.
  intros H. induction H as [ | a b l l' Hab _ IH]; simpl; [contradiction|].
  intros [<- | Hy]; [eauto|].
  destruct (IH Hy) as (x & Hx & Hxy). eauto.
Qed.

Lemma sbd_ids (l l' : list Entry) :
  Forall2 same_but_dependencies l l' -> ids_of l' = ids_of l.
Proof.
  intros H. induction H as [ | e e' l l' He _ IH]; simpl; auto.
  now rewrite (sbd_id e e' He), IH.
Qed.

Lemma sbd_denylisted (e e' : Entry) :
  same_but_dependencies e e' -> denylisted e' -> denylisted e.
Proof.
  intros H (i & Hi & Hin). exists i. split; auto.
  now rewrite <- (sbd_get e e' "id" H) by discriminate.
Qed.

Lemma keep_not_denylisted (e : Entry) : keep e = true -> ~ denylisted e.
Proof. intros Hk Hd. rewrite (denylisted_keep e Hd) in Hk. discriminate. Qed.

(** No candidate carries an id of the denylist. *)
Lemma new_entries_kept : forallb keep new_entries = true.
Proof. vm_compute. reflexivity. Qed.

Lemma printed_path_exists (w w' : world) (lines : list string) :
  w' = printed w lines -> forall p, path_exists w' p = path_exists w p.
Proof. now intros ->. Qed.

(** The [contexts] of a run: the entries kept, then the entries added for
    the files that exist, each as [update_dependencies] left it. *)
Lemma fix_steps_trace (r r' : Registry) (w w' : world) :
  fix_steps r w = (inr r', w') ->
  exists wa cs',
    (forall p, path_exists wa p = path_exists w p)
    /\ Dict.get "contexts" (components r') = Some cs'
    /\ Forall2 same_but_dependencies
         (filter keep (contexts_of r)
          ++ added_entries wa (filter keep (contexts_of r)))%list cs'.
Proof.
  intros H. apply fix_steps_inv in H as (r1 & r2 & w1 & w2 & H1 & H2 & H3).
  destruct (prints_remove r w _ _ H1) as (lines & Hw1 & _).
  apply remove_inv in H1 as (H1 & _). apply add_inv in H2 as (H2 & _).
  apply update_dependencies_inv in H3 as (H3 & _).
  specialize (H3 "contexts"). rewrite H2, H1 in H3.
  destruct H3 as (cs' & Hcs' & Hall).
  exists w1, cs'. split; [apply (printed_path_exists w w1 lines Hw1)|].
  split; [exact Hcs'|].
  eapply Forall2_impl; [apply updated_sbd | exact Hall].
Qed.

Lemma fix_steps_alive (r r' : Registry) (w w' : world) (e : Entry) :
  fix_steps r w = (inr r', w') -> In e (contexts_of r') -> ~ denylisted e.
Proof.
  intros Hrun He Hdead.
  destruct (fix_steps_trace r r' w w' Hrun) as (wa & cs' & _ & Hcs' & Hall).
  rewrite (contexts_of_get r' _ Hcs') in He.
  destruct (Forall2_In_r _ _ _ e Hall He) as (e0 & He0 & Hsbd).
  apply (sbd_denylisted e0 e Hsbd) in Hdead.
  apply in_app_or in He0 as [Hk | Ha].
  - apply filter_In in Hk as [_ Hk]. now apply (keep_not_denylisted e0).
  - apply added_entries_In_iff in Ha as (Ha & _).
    pose proof new_entries_kept as Hall0. rewrite forallb_forall in Hall0.
    now apply (keep_not_denylisted e0 (Hall0 e0 Ha)).
Qed.

(** After a run of the three steps no entry of [contexts] carries an id of
    the denylist: the entries added and the rewriting of dependencies bring
    none back. *)
Theorem fix_steps_no_dead (r r' : Registry) (w w' : world) :
  fix_steps r w = (inr r', w') ->
  forall e, In e (contexts_of r') -> ~ denylisted e.
Proof. intros Hrun e. apply (fix_steps_alive r r' w w' e Hrun). Qed.

(** A run of the three steps keeps the ids of [contexts] unique. *)
Theorem fix_steps_unique_ids (r r' : Registry) (w w' : world) :
  fix_steps r w = (inr r', w') ->
  NoDup (ids_of (contexts_of r)) ->
  NoDup (ids_of (contexts_of r')).
Proof.
  intros Hrun Hnd.
  destruct (fix_steps_trace r r' w w' Hrun) as (wa & cs' & _ & Hcs' & Hall).
  rewrite (contexts_of_get r' _ Hcs'), (sbd_ids _ _ Hall).
  apply added_ids_NoDup. rewrite ids_of_eq.
  apply NoDup_map_filter. now rewrite <- ids_of_eq.
Qed.

(** Whether a key is in a dictionary shows in its keys. *)
Lemma mem_keys {V} (k : string) (d : dict V) :
  Dict.mem k d = existsb (String.eqb k) (Dict.keys d).
Proof.
  unfold Dict.mem, Dict.keys.
  induction d as [ | [k' v] d IH]; [reflexivity|].
  cbn [Dict.get map fst existsb].
  destruct (String.eqb k k'); [reflexivity | exact IH].
Qed.

(** A run of the three steps leaves the other members of the document as
    they were and the categories in their order; [contexts], where it was
    missing, comes last. *)
Theorem fix_steps_frame (r r' : Registry) (w w' : world) :
  fix_steps r w = (inr r', w') ->
  members r' = members r
  /\ Dict.keys (components r')
     = (if Dict.mem "contexts" (components r) then Dict.keys (components r)
        else Dict.keys (components r) ++ ["contexts"])%list.
Proof.
  intros H. apply fix_steps_inv in H as (r1 & r2 & w1 & w2 & H1 & H2 & H3).
  pose proof (add_returned r1 r2 w1 w2 H2) as Hids.
  destruct (add_returns r1 w1 Hids) as (r2' & H2' & _ & _ & Hk2 & Hm2).
  rewrite H2 in H2'. injection H2' as <- _.
  apply remove_inv in H1 as (_ & Ho1 & Hk1 & Hm1).
  apply update_dependencies_inv in H3 as (_ & Hk3 & Hm3).
  split; [congruence|]. rewrite Hk3, Hk2, Hk1.
  assert (Hmem : Dict.mem "contexts" (components r1)
                 = Dict.mem "contexts" (components r)).
  { now rewrite !mem_keys, Hk1. }
  now rewrite Hmem.
Qed.

Lemma added_entries_ids (w : world) (cs cs' : list Entry) :
  ids_of cs = ids_of cs' -> added_entries w cs = added_entries w cs'.
Proof. intros H. now rewrite !added_entries_eq, H. Qed.

Lemma added_entries_disk (w w2 : world) (cs : list Entry) :
  (forall p, path_exists w2 p = path_exists w p) ->
  added_entries w2 cs = added_entries w cs.
Proof.
  intros H. rewrite !added_entries_eq. f_equal.
  apply filter_ext. intros e. unfold on_disk. apply H.
Qed.

(** A second run of the three steps, on what the first returned and with
    the same files on disk, neither drops nor adds an entry: every category
    keeps its entries' ids, in order. *)
Theorem fix_steps_rerun_ids
    (r r1 r2 : Registry) (w w1 w1' w2 : world) (category : string) :
  fix_steps r w = (inr r1, w1) ->
  (forall p, path_exists w1' p = path_exists w p) ->
  fix_steps r1 w1' = (inr r2, w2) ->
  ids_of (Dict.get_default category [] (components r2))
  = ids_of (Dict.get_default category [] (components r1)).
Proof.
  intros Hrun1 Hdisk Hrun2.
  destruct (String.eqb category "contexts") eqn:Ec.
  - apply String.eqb_eq in Ec. subst category.
    fold (contexts_of r2). fold (contexts_of r1).
    destruct (fix_steps_trace r r1 w w1 Hrun1) as (wa & cs1 & Hwa & Hcs1 & Hall1).
    destruct (fix_steps_trace r1 r2 w1' w2 Hrun2) as (wb & cs2 & Hwb & Hcs2 & Hall2).
    rewrite (contexts_of_get r2 _ Hcs2), (sbd_ids _ _ Hall2).
    assert (Hkeep : filter keep (contexts_of r1) = contexts_of r1).
    { apply filter_none_out. intros e He. apply not_denylisted_keep.
      apply (fix_steps_alive r r1 w w1 e Hrun1 He). }
    rewrite Hkeep, (contexts_of_get r1 _ Hcs1).
    rewrite (added_entries_ids wb cs1 _ (sbd_ids _ _ Hall1)).
    rewrite (added_again wa wb (filter keep (contexts_of r))).
    + now rewrite app_nil_r.
    + intros p. now rewrite Hwb, Hdisk, Hwa.
  - apply String.eqb_neq in Ec.
    pose proof (fix_steps_other_category r1 r2 w1' w2 category Hrun2 Ec) as H.
    unfold Dict.get_default.
    destruct (Dict.get category (components r1)) as [es|].
    + destruct H as (es' & -> & Hall). apply sbd_ids.
      eapply Forall2_impl; [apply updated_sbd | exact Hall].
    + now rewrite H.
Qed.

(** ** The further properties at the sample inputs *)

Lemma sample_fix_twice :
  exists r1 w1 r2 w2,
    fix_steps sample_registry sample_world = (inr r1, w1)
    /\ fix_steps r1 sample_world = (inr r2, w2).
Proof.
  eexists _, _, _, _. split; vm_compute; reflexivity.
Defined.

Lemma sample_ids_NoDup : NoDup (ids_of (contexts_of sample_registry)).
Proof.
  apply (NoDup_map_inv format), distinct_NoDup. vm_compute. reflexivity.
Qed.

Lemma remove_dead_references_idempotent_witness :
  forallb has_id (contexts_of sample_registry) = true
  /\ exists r1 w1,
       remove_dead_references sample_registry sample_world = (inr r1, w1)
       /\ forall w2,
            remove_dead_references r1 w2
            = (inr r1, printed w2 ["✓ Removed dead references: None"]).
Proof.
  split; [reflexivity|].
  apply (remove_dead_references_idempotent sample_registry sample_world).
  reflexivity.
Defined.

Lemma remove_dead_references_nothing_dead_witness :
  remove_dead_references guide_registry guide_world
  = (inr guide_registry,
     printed guide_world ["✓ Removed dead references: None"]).
Proof.
  apply (remove_dead_references_nothing_dead guide_registry guide_world).
  - reflexivity.
  - intros c [<- | []]. apply guide_not_denylisted.
Defined.

Lemma add_split_file_entries_idempotent_witness :
  forallb has_hashable_id (contexts_of sample_registry) = true
  /\ exists r1 w1,
       add_split_file_entries sample_registry sample_world = (inr r1, w1)
       /\ forall w2,
            (forall p, path_exists w2 p = path_exists sample_world p) ->
            add_split_file_entries r1 w2
            = (inr r1,
               printed w2 (warnings w2 ++ ["✓ Added 0 new split-file entries"])).
Proof.
  split; [reflexivity|].
  apply (add_split_file_entries_idempotent sample_registry sample_world).
  reflexivity.
Defined.

Lemma add_split_file_entries_unique_ids_witness :
  exists r' w',
    add_split_file_entries sample_registry sample_world = (inr r', w')
    /\ NoDup (ids_of (contexts_of r')).
Proof.
  apply (add_split_file_entries_unique_ids sample_registry sample_world).
  - reflexivity.
  - apply sample_ids_NoDup.
Defined.

Lemma add_split_file_entries_appended_witness :
  exists r' w' appended,
    add_split_file_entries sample_registry sample_world = (inr r', w')
    /\ contexts_of r' = (contexts_of sample_registry ++ appended)%list
    /\ forall c,
         In c appended
         <-> In c new_entries
             /\ path_exists sample_world (candidate_path c) = true
             /\ ~ exists e, In e (contexts_of sample_registry)
                            /\ entry_id e = entry_id c.
Proof.
  apply (add_split_file_entries_appended sample_registry sample_world).
  reflexivity.
Defined.

Lemma add_split_file_entries_raises_witness :
  exists e,
    (e = KeyError "id" \/ e = TypeError)
    /\ add_split_file_entries idless_registry sample_world
       = (inl e, printed sample_world (warnings sample_world)).
Proof.
  apply (add_split_file_entries_raises idless_registry sample_world).
  exists [("name", JStr "Untitled")]. split; [now left | reflexivity].
Defined.

Lemma update_dependencies_other_agents_witness :
  exists r' w',
    update_dependencies sample_registry sample_world = (inr r', w')
    /\ nth_error (agents_of r') 1
       = Some (sample_entry "openagent" ["context:workflows-delegation"]).
Proof.
  destruct sample_update_returns as (r' & w' & Hrun).
  exists r', w'. split; [exact Hrun|].
  apply (update_dependencies_other_agents sample_registry r' sample_world w' 1
           (sample_entry "openagent" ["context:workflows-delegation"])
           (JStr "openagent") Hrun);
    reflexivity.
Defined.

Lemma update_dependencies_untouched_context_witness :
  exists r' w',
    update_dependencies clean_registry clean_world = (inr r', w')
    /\ (forall dep, In dep ["context:foo"; "skill:adding-agent"] ->
                    mentions_old dep = false)
    /\ nth_error (contexts_of r') 0
       = Some (sample_entry "notes" ["context:foo"; "skill:adding-agent"]).
Proof.
  assert (Hrun : exists r' w',
             update_dependencies clean_registry clean_world = (inr r', w'))
    by (eexists _, _; vm_compute; reflexivity).
  destruct Hrun as (r' & w' & Hrun).
  assert (Hclean : forall dep, In dep ["context:foo"; "skill:adding-agent"] ->
                               mentions_old dep = false)
    by (intros dep [<- | [<- | []]]; reflexivity).
  exists r', w'. split; [exact Hrun|]. split; [exact Hclean|].
  apply (update_dependencies_untouched_context clean_registry r'
           clean_world w' 0
           (sample_entry "notes" ["context:foo"; "skill:adding-agent"]) Hrun);
    [reflexivity|].
  right. exists ["context:foo"; "skill:adding-agent"].
  split; [reflexivity | exact Hclean].
Defined.

Lemma update_dependencies_frame_witness :
  exists r' w',
    update_dependencies sample_registry sample_world = (inr r', w')
    /\ Dict.keys (components r') = Dict.keys (components sample_registry)
    /\ members r' = members sample_registry.
Proof.
  destruct sample_update_returns as (r' & w' & Hrun).
  exists r', w'. split; [exact Hrun|].
  exact (proj2 (update_dependencies_frame sample_registry r' sample_world w' Hrun)).
Defined.


Lemma update_dependencies_returned_witness :
  exists r' w',
    update_dependencies sample_registry sample_world = (inr r', w')
    /\ forall ctx v, In ctx (contexts_of sample_registry) ->
         Dict.get "dependencies" ctx = Some v ->
         iterable_of_strings v = true.
Proof.
  destruct sample_update_returns as (r' & w' & Hrun).
  exists r', w'. split; [exact Hrun|].
  exact (proj2 (update_dependencies_returned sample_registry r' sample_world w' Hrun)).
Defined.

Lemma fix_steps_no_dead_witness :
  exists r' w',
    fix_steps sample_registry sample_world = (inr r', w')
    /\ forall e, In e (contexts_of r') -> ~ denylisted e.
Proof.
  destruct sample_fix_returns as (r' & w' & Hrun).
  exists r', w'. split; [exact Hrun|].
  exact (fix_steps_no_dead sample_registry r' sample_world w' Hrun).
Defined.

Lemma fix_steps_unique_ids_witness :
  exists r' w',
    fix_steps sample_registry sample_world = (inr r', w')
    /\ NoDup (ids_of (contexts_of r')).
Proof.
  destruct sample_fix_returns as (r' & w' & Hrun).
  exists r', w'. split; [exact Hrun|].
  exact (fix_steps_unique_ids sample_registry r' sample_world w' Hrun
           sample_ids_NoDup).
Defined.

Lemma fix_steps_frame_witness :
  exists r' w',
    fix_steps sample_registry sample_world = (inr r', w')
    /\ members r' = members sample_registry
    /\ Dict.keys (components r') = Dict.keys (components sample_registry).
Proof.
  destruct sample_fix_returns as (r' & w' & Hrun).
  exists r', w'. split; [exact Hrun|].
  exact (fix_steps_frame sample_registry r' sample_world w' Hrun).
Defined.

Lemma fix_steps_rerun_ids_witness :
  exists r1 w1 r2 w2,
    fix_steps sample_registry sample_world = (inr r1, w1)
    /\ fix_steps r1 sample_world = (inr r2, w2)
    /\ ids_of (contexts_of r2) = ids_of (contexts_of r1).
Proof.
  destruct sample_fix_twice as (r1 & w1 & r2 & w2 & H1 & H2).
  exists r1, w1, r2, w2. split; [exact H1|]. split; [exact H2|].
  exact (fix_steps_rerun_ids sample_registry r1 r2 sample_world w1 sample_world
           w2 "contexts" H1 (fun p => eq_refl) H2).
Defined.

Lemma fix_steps_returns_witness :
  well_formed sample_registry = true
  /\ exists r' w', fix_steps sample_registry sample_world = (inr r', w').
Proof.
  split; [reflexivity|].
  apply (fix_steps_returns sample_registry sample_world). reflexivity.
Defined.

Lemma rewrite_context_dep_grows_again_witness :
  mentions_old "context:adding-agent" = true
  /\ mentions_old (rewrite_context_dep "context:adding-agent") = true
  /\ String.length "context:adding-agent"
     < String.length (rewrite_context_dep "context:adding-agent")
  /\ String.length (rewrite_context_dep "context:adding-agent")
     < String.length
         (rewrite_context_dep (rewrite_context_dep "context:adding-agent")).
Proof.
  split; [reflexivity|].
  apply (rewrite_context_dep_grows_again "context:adding-agent").
  reflexivity.
Defined.
